(** * drive/list.go: paginated listing and table rendering

    A shallow embedding of [List], [listAllFiles], [PrintFileList],
    [PrintTabbedFileList] and [filetype], with the remote service, the heap of
    [drive.File] objects and the output writers made explicit. *)

From stdpp Require Import base numbers list strings.
From Stdlib Require Import ZArith Lia Ascii.

Local Open Scope string_scope.
Local Open Scope list_scope.
Local Open Scope Z_scope.

(** ** Data *)

(** Go's [rune]: a code point. *)
Definition rune := Z.

(** A [*drive.File]: the address of a file object in the heap. *)
Abbreviation loc := nat.

(** The fields of [drive.File] that list.go requests and reads. *)
Record File := mkFile {
  Id : string;
  Name : string;
  Md5Checksum : string;
  MimeType : string;
  Size : Z;
  CreatedTime : string;
  Parents : list string;
  HeadRevisionId : string
}.

(** [f.Name = name] on a file object. *)
Definition set_Name (name : string) (f : File) : File :=
  mkFile (Id f) name (Md5Checksum f) (MimeType f) (Size f) (CreatedTime f)
         (Parents f) (HeadRevisionId f).

(** An [io.Writer]: the process's standard output or any other writer. *)
Inductive Writer := os_Stdout | Sink (n : nat).

(** What reaches a writer, through one of the two library writers bound to
    it: a record that a [csv.Writer] whose [Comma] is [comma] accepted and
    encoded, or the text of one print call on a [tabwriter.Writer].  The byte
    encoding of the two packages (quoting, padding) is not modelled. *)
Inductive Row :=
| CsvRecord (comma : rune) (fields : list string)
| TabLine (text : string).

(** The parameters of one [files.list] request, as set on the call builder
    by [Q], [Fields], [OrderBy], [PageSize] and [PageToken]. *)
Record FilesListCall := mkCall {
  Q : string;
  Fields : list string;
  OrderBy : string;
  PageSize : Z;
  PageToken : string
}.

Definition with_PageToken (c : FilesListCall) (tok : string) : FilesListCall :=
  mkCall (Q c) (Fields c) (OrderBy c) (PageSize c) tok.

(** The body of a successful answer of the remote service. *)
Record Page := mkPage {
  page_files : list File;
  page_next : string
}.

(** [drive.FileList] after decoding: pointers to freshly allocated files. *)
Record FileList := mkFileList {
  Files : list loc;
  NextPageToken : string
}.

(** Go compares [error] values by identity.  [controlledStop] is the value
    allocated at list.go:88, inside the call that compares against it, so an
    error made anywhere else is never identical to it whatever its text:
    [External] is an error that comes from a collaborator (the remote call,
    the path resolver), [Errorf] one that list.go builds with [fmt.Errorf]. *)
Inductive error :=
| controlledStop
| External (msg : string)
| Errorf (msg : string).

(** The [Error()] method. *)
Definition Error (e : error) : string :=
  match e with
  | controlledStop => "Controlled stop"
  | External msg => msg
  | Errorf msg => msg
  end.

(** [*Drive], reduced to what list.go uses of it: the answer of the remote
    service to a [files.list] request (a failure with its message, or a page),
    and the [absPath] operation of the path finder that [newPathfinder]
    builds on the same service.  [absPath] is defined in another file of the
    package and is taken as given: for the file it is handed it returns, as
    in Go, a string together with an error (here the error's message). *)
Record Drive := mkDrive {
  service_Files_List : FilesListCall -> string + Page;
  absPath : File -> string * option string
}.

(** ** Integers *)

(** [int] is 64 bits wide on the targets considered. *)
Definition intSize : Z := 64.

Definition wrap_signed (bits x : Z) : Z :=
  (x + 2 ^ (bits - 1)) mod 2 ^ bits - 2 ^ (bits - 1).

(** The conversion [int(x)] of an [int64]. *)
Definition int (x : Z) : Z := wrap_signed intSize x.

(** The values of type [int64]. *)
Definition in_int64 (x : Z) : Prop := - 2 ^ 63 <= x < 2 ^ 63.

(** [len(s)] *)
Definition len {A} (s : list A) : Z := Z.of_nat (length s).

(** Modelled from the spec: [min] on [int] is not defined in list.go; the
    spec has the collection truncated to the requested length when that is
    smaller, so it is the smaller of its two arguments. *)
Definition min (x y : Z) : Z := Z.min x y.

(** ** The world and the monad of effects *)

Record World := mkWorld {
  heap : list File;                 (* file objects, by address *)
  requests : list FilesListCall;    (* requests received by the remote service *)
  output : list (Writer * Row)      (* rows delivered, with their destination *)
}.

(** A computation returns, panics, or is still running when the fuel given to
    the pagination loop is spent. *)
Inductive outcome (A : Type) :=
| Ret (a : A) (w : World)
| Panic (w : World)
| OutOfFuel (w : World).
Arguments Ret {A} a w.
Arguments Panic {A} w.
Arguments OutOfFuel {A} w.

Definition M (A : Type) : Type := World -> outcome A.

Definition ret {A} (a : A) : M A := fun w => Ret a w.

Definition bind {A B} (m : M A) (k : A -> M B) : M B :=
  fun w => match m w with
           | Ret a w' => k a w'
           | Panic w' => Panic w'
           | OutOfFuel w' => OutOfFuel w'
           end.

Definition panic {A} : M A := fun w => Panic w.

Notation "x <- m ;; k" := (bind m (fun x => k))
  (at level 100, m at next level, right associativity).
Notation "m ;;; k" := (bind m (fun _ => k))
  (at level 100, right associativity).

(** The world a computation leaves behind, however it ends. *)
Definition world_of {A} (o : outcome A) : World :=
  match o with Ret _ w | Panic w | OutOfFuel w => w end.

(** The error a computation hands to its caller, if it returns one. *)
Definition returned {A} (o : outcome A) : option A :=
  match o with Ret a _ => Some a | _ => None end.

Definition send (c : FilesListCall) : M unit :=
  fun w => Ret tt (mkWorld (heap w) (requests w ++ [c]) (output w)).

(** The [n] addresses from [a] on. *)
Definition fresh_at (a n : nat) : list loc := seq a n.

(** Decoding a page allocates its files one after the other. *)
Definition alloc (fs : list File) : M (list loc) :=
  fun w => Ret (fresh_at (length (heap w)) (length fs))
               (mkWorld (heap w ++ fs) (requests w) (output w)).

(** Reading through a [*drive.File]; a pointer to nothing panics. *)
Definition deref (l : loc) : M File :=
  fun w => match heap w !! l with
           | Some f => Ret f w
           | None => Panic w
           end.

Definition store (l : loc) (f : File) : M unit :=
  fun w => Ret tt (mkWorld (<[l := f]> (heap w)) (requests w) (output w)).

Definition emit (dst : Writer) (rows : list Row) : M unit :=
  fun w => Ret tt (mkWorld (heap w) (requests w)
                           (output w ++ map (pair dst) rows)).

(** ** The generated client: [Do] and [Pages] *)

(** [c.Do()]: one request; the decoded page or the error. *)
Definition Do (self : Drive) (c : FilesListCall) : M (error + FileList) :=
  send c ;;;
  match service_Files_List self c with
  | inl msg => ret (inl (External msg))
  | inr p =>
      ptrs <- alloc (page_files p) ;;
      ret (inr (mkFileList ptrs (page_next p)))
  end.

(** [c.Pages(ctx, f)]: calls [Do], hands each page to [f], stops at the first
    error of either and when a page carries no next token.  The variables that
    the closure [f] captures and assigns are its state [s].  The loop of the
    client has no bound of its own: [fuel] bounds the number of requests, and
    a run that would need more ends in [OutOfFuel]. *)
Fixpoint Pages {St : Type} (fuel : nat) (self : Drive) (c : FilesListCall)
    (f : FileList -> St -> St * option error) (s : St)
    : M (St * option error) :=
  match fuel with
  | O => fun w => OutOfFuel w
  | S fuel' =>
      r <- Do self c ;;
      match r with
      | inl err => ret (s, Some err)
      | inr x =>
          let (s', err) := f x s in
          match err with
          | Some e => ret (s', Some e)
          | None =>
              if String.eqb (NextPageToken x) ""
              then ret (s', None)
              else Pages fuel' self (with_PageToken c (NextPageToken x)) f s'
          end
      end
  end.

(** ** listAllFiles *)

Record listAllFilesArgs := mkListAllFilesArgs {
  query : string;
  fields : list string;
  sortOrder : string;
  maxFiles : Z
}.

(** list.go:81-86 *)
Definition pageSizeOf (maxFiles : Z) : Z :=
  if (0 <? maxFiles) && (maxFiles <? 1000) then maxFiles else 1000.

(** list.go:90, the call handed to [Pages]. *)
Definition listCall (args : listAllFilesArgs) : FilesListCall :=
  mkCall (query args) (fields args) (sortOrder args)
         (pageSizeOf (maxFiles args)) "".

(** list.go:94, the test that ends pagination. *)
Definition enough (maxFiles : Z) (files : list loc) : bool :=
  (0 <? maxFiles) && (int maxFiles <=? len files).

(** list.go:90-99, the closure; [files] is the variable it captures. *)
Definition collect (maxFiles : Z) (fl : FileList) (files : list loc)
    : list loc * option error :=
  let files := files ++ Files fl in
  if enough maxFiles files then (files, Some controlledStop) else (files, None).

(** [files[:n]]; [n] outside [0..len(files)] is a run-time panic (up to the
    capacity Go would expose spare cells, which no caller here can reach). *)
Definition slice_to {A} (files : list A) (n : Z) : M (list A) :=
  if (0 <=? n) && (n <=? len files) then ret (take (Z.to_nat n) files)
  else panic.

(** list.go:101-110, what follows the call to [Pages]. *)
Definition afterPages (maxFiles : Z) (r : list loc * option error)
    : M (list loc * option error) :=
  let (files, err) := r in
  match err with
  | Some (External _ as e) | Some (Errorf _ as e) => ret ([], Some e)
  | Some controlledStop | None =>
      if 0 <? maxFiles then
        let n := min (len files) (int maxFiles) in
        files' <- slice_to files n ;;
        ret (files', None)
      else ret (files, None)
  end.

Definition listAllFiles (fuel : nat) (self : Drive) (args : listAllFilesArgs)
    : M (list loc * option error) :=
  r <- Pages fuel self (listCall args) (collect (maxFiles args)) [] ;;
  afterPages (maxFiles args) r.

(** ** Rendering *)

(** The functions of package [drive] that list.go calls and that are defined
    in other files of the package: they are taken as given.  [isDir] and
    [isBinary] read the file they are handed. *)
Class Util := mkUtil {
  truncateString : string -> Z -> string;
  formatSize : Z -> bool -> string;
  formatDatetime : string -> string;
  isDir : File -> bool;
  isBinary : File -> bool
}.

Module PrintFileListArgs.
Record t := mk {
  Out : Writer;
  Files : list loc;
  NameWidth : Z;
  SkipHeader : bool;
  SizeInBytes : bool;
  Delimiter : rune;
  UseExtended : bool
}.
End PrintFileListArgs.

Module ListFilesArgs.
Record t := mk {
  Out : Writer;
  MaxFiles : Z;
  NameWidth : Z;
  Query : string;
  SortOrder : string;
  SkipHeader : bool;
  SizeInBytes : bool;
  AbsPath : bool;
  UseCsv : bool;
  UseExtended : bool
}.
End ListFilesArgs.

(** list.go:182-189 *)
Definition filetype `{Util} (f : File) : string :=
  if isDir f then "dir"
  else if isBinary f then "bin"
  else "doc".

(** A [csv.Writer]: its destination, its [Comma], and the records written
    but not yet flushed. *)
Record csv_Writer := mkCsvWriter {
  csv_dst : Writer;
  Comma : rune;
  csv_pending : list Row
}.

(** [csv.NewWriter(dst)]; the default [Comma] is a comma. *)
Definition csv_NewWriter (dst : Writer) : csv_Writer := mkCsvWriter dst 44 [].

Definition set_Comma (w : csv_Writer) (r : rune) : csv_Writer :=
  mkCsvWriter (csv_dst w) r (csv_pending w).

(** [utf8.ValidRune]: a code point that is not a surrogate half. *)
Definition utf8_ValidRune (r : rune) : bool :=
  ((0 <=? r) && (r <? 55296)) || ((57343 <? r) && (r <=? 1114111)).

(** [validDelim] of encoding/csv: neither NUL, a double quote, a carriage
    return or a line feed, nor an invalid rune or U+FFFD. *)
Definition validDelim (r : rune) : bool :=
  negb (r =? 0) && negb (r =? 34) && negb (r =? 13) && negb (r =? 10)
  && utf8_ValidRune r && negb (r =? 65533).

Definition errInvalidDelim : error :=
  External "csv: invalid field or comment delimiter".

(** [w.Write(record)]: with a [Comma] the package rejects nothing is written
    and an error is returned. *)
Definition csv_Write (w : csv_Writer) (record : list string)
    : csv_Writer * option error :=
  if validDelim (Comma w)
  then (mkCsvWriter (csv_dst w) (Comma w)
                    (csv_pending w ++ [CsvRecord (Comma w) record]), None)
  else (w, Some errInvalidDelim).

Definition csv_Flush (w : csv_Writer) : M csv_Writer :=
  emit (csv_dst w) (csv_pending w) ;;;
  ret (mkCsvWriter (csv_dst w) (Comma w) []).

(** The loop of [WriteAll]: it ends at the first record that [Write]
    refuses. *)
Fixpoint csv_WriteEach (w : csv_Writer) (records : list (list string))
    : csv_Writer * option error :=
  match records with
  | [] => (w, None)
  | record :: records' =>
      let (w', err) := csv_Write w record in
      match err with
      | Some e => (w', Some e)
      | None => csv_WriteEach w' records'
      end
  end.

(** [w.WriteAll(records)]: every record, then a flush; after an error of
    [Write] it returns without flushing. *)
Definition csv_WriteAll (w : csv_Writer) (records : list (list string))
    : M (csv_Writer * option error) :=
  let (w', err) := csv_WriteEach w records in
  match err with
  | Some e => ret (w', Some e)
  | None => w'' <- csv_Flush w' ;; ret (w'', None)
  end.

(** A [tabwriter.Writer]: its destination and the text written to it but not
    yet flushed, one entry per call that printed to it. *)
Record tab_Writer := mkTabWriter {
  tab_dst : Writer;
  tab_pending : list Row
}.

Definition tab_Init (dst : Writer) : tab_Writer := mkTabWriter dst [].

Definition tab_print (w : tab_Writer) (text : string) : tab_Writer :=
  mkTabWriter (tab_dst w) (tab_pending w ++ [TabLine text]).

Definition tab_Flush (w : tab_Writer) : M tab_Writer :=
  emit (tab_dst w) (tab_pending w) ;;;
  ret (mkTabWriter (tab_dst w) []).

Definition tab : string := String "009"%char EmptyString.
Definition newline : string := String "010"%char EmptyString.

(** [fmt.Fprintln(w, s)] for one string. *)
Definition Fprintln (w : tab_Writer) (s : string) : tab_Writer :=
  tab_print w (s +:+ newline).

(** [fmt.Fprintf(w, "%s\t%s\t%s\t%s\t%s\n", a, b, c, d, e)] for five strings. *)
Definition Fprintf5 (w : tab_Writer) (a b c d e : string) : tab_Writer :=
  tab_print w (a +:+ tab +:+ b +:+ tab +:+ c +:+ tab +:+ d +:+ tab +:+ e
                 +:+ newline).

Section Rendering.
Context `{Util}.
Import PrintFileListArgs.

(** list.go:140-155, the loop that builds [records]. *)
Fixpoint csvRecords (args : PrintFileListArgs.t) (files : list loc)
    (records : list (list string)) : M (list (list string)) :=
  match files with
  | [] => ret records
  | p :: files' =>
      f <- deref p ;;
      let record := [ Id f;
                      truncateString (Name f) (NameWidth args);
                      filetype f;
                      formatSize (Size f) (SizeInBytes args);
                      formatDatetime (CreatedTime f) ] in
      let record := if UseExtended args
                    then record ++ [Md5Checksum f; HeadRevisionId f]
                    else record in
      csvRecords args files' (records ++ [record])
  end.

(** list.go:123-159.  The errors that [Write] and [WriteAll] return are
    dropped, as the source drops them. *)
Definition PrintFileList (args : PrintFileListArgs.t) : M unit :=
  let w := csv_NewWriter os_Stdout in
  let w := set_Comma w (Delimiter args) in
  let w :=
    if negb (SkipHeader args) then
      let headers := ["Id"; "Name"; "Type"; "Size"; "Created"] in
      let headers := if UseExtended args
                     then headers ++ ["Checksum"; "HeadRevisionId"]
                     else headers in
      fst (csv_Write w headers)
    else w in
  records <- csvRecords args (Files args) [] ;;
  r <- csv_WriteAll w records ;;
  csv_Flush (fst r) ;;;
  ret tt.

(** list.go:169-177, the loop that prints one line per file. *)
Fixpoint tabbedLines (args : PrintFileListArgs.t) (files : list loc)
    (w : tab_Writer) : M tab_Writer :=
  match files with
  | [] => ret w
  | p :: files' =>
      f <- deref p ;;
      tabbedLines args files'
        (Fprintf5 w (Id f)
                    (truncateString (Name f) (NameWidth args))
                    (filetype f)
                    (formatSize (Size f) (SizeInBytes args))
                    (formatDatetime (CreatedTime f)))
  end.

Definition PrintTabbedFileList (args : PrintFileListArgs.t) : M unit :=
  let w := tab_Init (Out args) in
  let w :=
    if negb (SkipHeader args)
    then Fprintln w ("Id" +:+ tab +:+ "Name" +:+ tab +:+ "Type" +:+ tab
                       +:+ "Size" +:+ tab +:+ "Created")
    else w in
  w <- tabbedLines args (Files args) w ;;
  tab_Flush w ;;;
  ret tt.

End Rendering.

(** ** List *)

(** list.go:44-49, the loop of absolute-path mode: the name of each file
    object is assigned what [absPath] returns, and the first error ends
    [List]. *)
Fixpoint absPathLoop (self : Drive) (files : list loc) : M (option error) :=
  match files with
  | [] => ret None
  | p :: files' =>
      f <- deref p ;;
      let (name, err) := absPath self f in
      store p (set_Name name f) ;;;
      match err with
      | Some msg => ret (Some (External msg))
      | None => absPathLoop self files'
      end
  end.

Definition listFields : list string :=
  [ "nextPageToken";
    "files(id, name, md5Checksum, mimeType, size, createdTime, parents, headRevisionId)" ].

(** list.go:28-33 *)
Definition listArgsOf (args : ListFilesArgs.t) : listAllFilesArgs :=
  mkListAllFilesArgs (ListFilesArgs.Query args) listFields
                     (ListFilesArgs.SortOrder args)
                     (ListFilesArgs.MaxFiles args).

(** list.go:52-60 *)
Definition printArgsOf (args : ListFilesArgs.t) (files : list loc)
    : PrintFileListArgs.t :=
  PrintFileListArgs.mk (ListFilesArgs.Out args) files
    (int (ListFilesArgs.NameWidth args))
    (ListFilesArgs.SkipHeader args)
    (ListFilesArgs.SizeInBytes args)
    124 (* '|' *)
    (ListFilesArgs.UseExtended args).

Definition List `{Util} (fuel : nat) (self : Drive) (args : ListFilesArgs.t)
    : M (option error) :=
  let listArgs := listArgsOf args in
  r <- listAllFiles fuel self listArgs ;;
  let (files, err) := r in
  match err with
  | Some e => ret (Some (Errorf ("Failed to list files: " +:+ Error e)))
  | None =>
      err <- (if ListFilesArgs.AbsPath args then absPathLoop self files
              else ret None) ;;
      match err with
      | Some e => ret (Some e)
      | None =>
          let printArgs := printArgsOf args files in
          (if ListFilesArgs.UseCsv args then PrintFileList printArgs
           else PrintTabbedFileList printArgs) ;;;
          ret None
      end
  end.

(** ** What the remote service holds *)

(** How a full walk over the pages of a request ends. *)
Inductive remote_end := Exhausted | Failed (msg : string).

(** [remote_run svc c ps o]: asked [c] and then each next token in turn, the
    service answers with the pages [ps] and then either has no next token
    ([Exhausted]) or fails ([Failed]). *)
Inductive remote_run (svc : FilesListCall -> string + Page)
    : FilesListCall -> list Page -> remote_end -> Prop :=
| run_failed c msg :
    svc c = inl msg -> remote_run svc c [] (Failed msg)
| run_last c p :
    svc c = inr p -> page_next p = "" -> remote_run svc c [p] Exhausted
| run_next c p ps o :
    svc c = inr p -> page_next p <> "" ->
    remote_run svc (with_PageToken c (page_next p)) ps o ->
    remote_run svc c (p :: ps) o.

(** The records of a sequence of pages, in the order they are served. *)
Definition records (ps : list Page) : list File := concat (map page_files ps).

Definition end_error (o : remote_end) : option error :=
  match o with Exhausted => None | Failed msg => Some (External msg) end.

(** The pointers [alloc] hands out for [n] files in the world [w]. *)
Definition fresh (w : World) (n : nat) : list loc := fresh_at (length (heap w)) n.

(** The files a list of pointers refers to, when all of them are allocated. *)
Definition deref_all (h : list File) (ptrs : list loc) : option (list File) :=
  mapM (fun p => h !! p) ptrs.


(** The same arguments with another maximum. *)
Definition with_maxFiles (args : listAllFilesArgs) (n : Z) : listAllFilesArgs :=
  mkListAllFilesArgs (query args) (fields args) (sortOrder args) n.


(** ** What a rendering is expected to write *)

(** The column names, with or without the extended columns. *)
Definition columns (extended : bool) : list string :=
  ["Id"; "Name"; "Type"; "Size"; "Created"]
  ++ (if extended then ["Checksum"; "HeadRevisionId"] else []).

(** The fields of the row of one file. *)
Definition cells `{Util} (width : Z) (bytes extended : bool) (f : File)
    : list string :=
  [ Id f; truncateString (Name f) width; filetype f;
    formatSize (Size f) bytes; formatDatetime (CreatedTime f) ]
  ++ (if extended then [Md5Checksum f; HeadRevisionId f] else []).

(** A line for the tab writer: the cells separated by tabs, then a newline. *)
Definition tabbed_line (cs : list string) : string :=
  String.concat tab cs +:+ newline.

(** The rows of the delimited rendering: the header unless it is skipped,
    then one record per file. *)
Definition csv_rows `{Util} (a : PrintFileListArgs.t) (fs : list File)
    : list Row :=
  (if PrintFileListArgs.SkipHeader a then []
   else [CsvRecord (PrintFileListArgs.Delimiter a)
                   (columns (PrintFileListArgs.UseExtended a))])
  ++ map (fun f => CsvRecord (PrintFileListArgs.Delimiter a)
                     (cells (PrintFileListArgs.NameWidth a)
                            (PrintFileListArgs.SizeInBytes a)
                            (PrintFileListArgs.UseExtended a) f)) fs.

(** The rows of the tabbed rendering: five columns whatever the options. *)
Definition tabbed_rows `{Util} (a : PrintFileListArgs.t) (fs : list File)
    : list Row :=
  (if PrintFileListArgs.SkipHeader a then []
   else [TabLine (tabbed_line (columns false))])
  ++ map (fun f => TabLine (tabbed_line
                     (cells (PrintFileListArgs.NameWidth a)
                            (PrintFileListArgs.SizeInBytes a) false f))) fs.




(** The delimiter a row was encoded with, if it is a delimited record. *)
Definition delimiter_of (r : Row) : option rune :=
  match r with CsvRecord comma _ => Some comma | TabLine _ => None end.

(** The rows, of those in [out], that went to the writer [dst]. *)
Definition written_to (dst : Writer) (out : list (Writer * Row)) : list Row :=
  omap (fun x => match x, dst with
                 | (os_Stdout, r), os_Stdout => Some r
                 | (Sink n, r), Sink m => if Nat.eqb n m then Some r else None
                 | _, _ => None
                 end) out.

(** [absPath] succeeds on the file at [p]. *)
Definition resolves (self : Drive) (h : list File) (p : loc) : Prop :=
  exists f, h !! p = Some f /\ snd (absPath self f) = None.

(** The file with its name replaced by what [absPath] returns for it. *)
Definition renamed (self : Drive) (f : File) : File :=
  set_Name (fst (absPath self f)) f.
(** ** A small drive to run the definitions on *)

Definition file_a : File :=
  mkFile "id-a" "a.txt" "d41d8cd9" "text/plain" 12 "2020-01-01" ["root"] "r1".
Definition file_b : File :=
  mkFile "id-b" "photos" "" "application/vnd.google-apps.folder" 0
         "2020-01-02" ["root"] "".
Definition file_c : File :=
  mkFile "id-c" "c.bin" "900150983cd2" "application/octet-stream" 2048
         "2020-01-03" ["id-b"] "r3".
Definition file_d : File :=
  mkFile "id-d" "notes" "" "application/vnd.google-apps.document" 0
         "2020-01-04" ["id-b"] "".
Definition file_e : File :=
  mkFile "id-e" "e.txt" "e4da3b7fbbce" "text/plain" 7 "2020-01-05" ["gone"] "r5".

(** Three pages of two, two and one files. *)
Definition three_pages (c : FilesListCall) : string + Page :=
  if String.eqb (PageToken c) "" then inr (mkPage [file_a; file_b] "t1")
  else if String.eqb (PageToken c) "t1" then inr (mkPage [file_c; file_d] "t2")
  else if String.eqb (PageToken c) "t2" then inr (mkPage [file_e] "")
  else inl "invalid page token".

(** One page, then a failure. *)
Definition failing_service (c : FilesListCall) : string + Page :=
  if String.eqb (PageToken c) "" then inr (mkPage [file_a; file_b] "t1")
  else inl "backend error".

(** Paths are resolved except for the file whose parent is gone. *)
Definition sample_absPath (f : File) : string * option string :=
  if String.eqb (Id f) "id-e" then ("", Some "Failed to get parent")
  else ("/" +:+ Name f, None).

Definition sample_drive : Drive := mkDrive three_pages sample_absPath.
Definition failing_drive : Drive := mkDrive failing_service sample_absPath.

Definition sample_util : Util :=
  mkUtil (fun s _ => s)
         (fun n _ => if n =? 0 then "" else "some")
         (fun s => s)
         (fun f => String.eqb (MimeType f) "application/vnd.google-apps.folder")
         (fun f => negb (String.eqb (Md5Checksum f) "")).

Definition empty_world : World := mkWorld [] [] [].

Definition three_pages_list : list Page :=
  [mkPage [file_a; file_b] "t1"; mkPage [file_c; file_d] "t2"; mkPage [file_e] ""].


(** Arguments of [List] writing to the writer [Sink 1]. *)
Definition sample_args (max : Z) (abs csv ext : bool) : ListFilesArgs.t :=
  ListFilesArgs.mk (Sink 1) max 40 "trashed = false" "" false true abs csv ext.

Definition failing_pages : list Page := [mkPage [file_a; file_b] "t1"].

(** A world in which three files are already allocated, and arguments for
    the two renderers that point to them. *)
Definition listed_world : World := mkWorld [file_a; file_b; file_c] [] [].

Definition print_args (skip ext : bool) (delimiter : rune)
    : PrintFileListArgs.t :=
  PrintFileListArgs.mk (Sink 1) [0; 1; 2]%nat 40 skip true delimiter ext.

(** The world after the three pages have been fetched with no maximum. *)
Definition fetched_world : World :=
  mkWorld [file_a; file_b; file_c; file_d; file_e]
          [ mkCall "trashed = false" listFields "" 1000 "";
            mkCall "trashed = false" listFields "" 1000 "t1";
            mkCall "trashed = false" listFields "" 1000 "t2" ]
          [].


(** ** Further notions used to state what the code does *)

(** The records a listing with maximum [N] shows, of those the service
    holds: the first [N] with a positive maximum, all of them otherwise. *)
Definition listed (N : Z) (total : list File) : list File :=
  if 0 <? N then take (Z.to_nat N) total else total.

(** The rows of one rendering of the files [fs], with their destination:
    the delimited one goes to the standard output, the tabbed one to [Out]. *)
Definition rendering `{Util} (args : ListFilesArgs.t) (fs : list File)
    : list (Writer * Row) :=
  if ListFilesArgs.UseCsv args
  then map (pair os_Stdout) (csv_rows (printArgsOf args []) fs)
  else map (pair (ListFilesArgs.Out args)) (tabbed_rows (printArgsOf args []) fs).

(** Two requests that differ in their page token at most. *)
Definition same_query (c c' : FilesListCall) : Prop :=
  Q c' = Q c /\ Fields c' = Fields c /\ OrderBy c' = OrderBy c /\
  PageSize c' = PageSize c.

(** A drive whose listing is one page without files. *)
Definition empty_service (c : FilesListCall) : string + Page :=
  inr (mkPage [] "").

Definition empty_drive : Drive := mkDrive empty_service sample_absPath.

(** A drive on which every path resolves. *)
Definition resolving_drive : Drive :=
  mkDrive three_pages (fun f => ("/My Drive/" +:+ Name f, None)).

(** A service that always has one more page of one file. *)
Definition endless_service (c : FilesListCall) : string + Page :=
  inr (mkPage [file_a] "more").

Definition endless_drive : Drive := mkDrive endless_service sample_absPath.

(** Two pages of two files, then a failure. *)
Definition late_failure (c : FilesListCall) : string + Page :=
  if String.eqb (PageToken c) "" then inr (mkPage [file_a; file_b] "t1")
  else if String.eqb (PageToken c) "t1" then inr (mkPage [file_c; file_d] "t2")
  else inl "quota exceeded".

Definition late_failure_drive : Drive := mkDrive late_failure sample_absPath.

Definition late_failure_pages : list Page :=
  [mkPage [file_a; file_b] "t1"; mkPage [file_c; file_d] "t2"].
(** ** Integers: facts *)

Lemma int_in_range x : in_int64 x -> int x = x.
Proof.
  unfold in_int64, int, wrap_signed, intSize. intros Hx.
  change (2 ^ (64 - 1)) with (2 ^ 63).
  rewrite Z.mod_small; lia.
Qed.

Lemma enough_false_nonpos N files : N <= 0 -> enough N files = false.
Proof. intros HN. unfold enough. destruct (Z.ltb_spec 0 N); [lia | done]. Qed.

Lemma enough_true N files :
  in_int64 N -> enough N files = true <-> 0 < N /\ N <= len files.
Proof.
  intros HN. unfold enough. rewrite (int_in_range _ HN).
  rewrite andb_true_iff, Z.ltb_lt, Z.leb_le. done.
Qed.

Lemma records_cons p ps : records (p :: ps) = page_files p ++ records ps.
Proof. reflexivity. Qed.

Lemma records_app ps qs : records (ps ++ qs) = records ps ++ records qs.
Proof. unfold records. by rewrite map_app, concat_app. Qed.

(** ** Pagination *)

(** One turn of the loop of [Pages]. *)
Lemma Pages_step {St} fuel self c (f : FileList -> St -> St * option error) s w :
  Pages (S fuel) self c f s w =
  let w0 := mkWorld (heap w) (requests w ++ [c]) (output w) in
  match service_Files_List self c with
  | inl msg => Ret (s, Some (External msg)) w0
  | inr p =>
      let w1 := mkWorld (heap w ++ page_files p) (requests w ++ [c]) (output w) in
      let x := mkFileList (fresh_at (length (heap w)) (length (page_files p)))
                          (page_next p) in
      match f x s with
      | (s', Some e) => Ret (s', Some e) w1
      | (s', None) =>
          if String.eqb (page_next p) "" then Ret (s', None) w1
          else Pages fuel self (with_PageToken c (page_next p)) f s' w1
      end
  end.
Proof.
  simpl. unfold bind, Do, bind, send, alloc, ret. simpl.
  destruct (service_Files_List self c) as [msg|p]; [done|]. simpl.
  destruct (f _ s) as [s' [e|]]; [done|].
  by destruct (String.eqb _ _).
Qed.

Lemma collect_eq N fl files :
  collect N fl files =
  (files ++ Files fl,
   if enough N (files ++ Files fl) then Some controlledStop else None).
Proof. unfold collect. by destruct (enough _ _). Qed.

Section Pagination.
Variable self : Drive.
Variable N : Z.

(** [Pages] under the closure of [listAllFiles], against a service whose
    walk is known: it returns, having fetched a prefix [got] of the pages;
    either the closure asked to stop after the last page of [got], or every
    page was fetched and the error is the one the walk ends with. *)
Lemma Pages_collect c ps o :
  remote_run (service_Files_List self) c ps o ->
  forall fuel acc w, (length ps < fuel)%nat ->
  exists got rest calls e,
    ps = got ++ rest /\
    Pages fuel self c (collect N) acc w =
      Ret (acc ++ fresh w (length (records got)), e)
          (mkWorld (heap w ++ records got) (requests w ++ calls) (output w)) /\
    ((e = Some controlledStop /\
      enough N (acc ++ fresh w (length (records got))) = true /\
      length calls = length got)
     \/ (rest = [] /\ e = end_error o /\
         length calls =
           (length ps + match o with Exhausted => 0 | Failed _ => 1 end)%nat)).
Proof.
  induction 1 as [c msg Hc | c p Hc Hnext | c p ps o Hc Hnext Hrun IH];
    intros [|fuel] acc w Hfuel; simpl in Hfuel; try lia;
    rewrite Pages_step, Hc; cbv zeta.
  - exists [], [], [c], (Some (External msg)).
    unfold fresh, fresh_at. simpl. rewrite !app_nil_r. auto 10.
  - rewrite collect_eq. simpl Files. fold (fresh w (length (page_files p))).
    exists [p], [], [c].
    replace (records [p]) with (page_files p)
      by (unfold records; simpl; by rewrite app_nil_r).
    destruct (enough N _) eqn:He.
    + exists (Some controlledStop). auto 10.
    + exists None. rewrite Hnext. simpl. split; [done|]. split; [done|].
      right. auto 10.
  - rewrite collect_eq. simpl Files. fold (fresh w (length (page_files p))).
    destruct (enough N _) eqn:He.
    + exists [p], ps, [c], (Some controlledStop).
      replace (records [p]) with (page_files p)
        by (unfold records; simpl; by rewrite app_nil_r).
      auto 10.
    + destruct (String.eqb_spec (page_next p) "") as [Heq|_]; [done|].
      set (w1 := mkWorld (heap w ++ page_files p) (requests w ++ [c]) (output w)).
      destruct (IH fuel (acc ++ fresh w (length (page_files p))) w1)
        as (got & rest & calls & e & Hps & Hrun' & Hcases); [lia|].
      assert (Hfresh : forall n,
        fresh w (length (page_files p)) ++ fresh w1 n
        = fresh w (length (page_files p) + n)).
      { intros n. unfold fresh, fresh_at, w1. simpl. rewrite length_app.
        symmetry. apply seq_app. }
      exists (p :: got), rest, (c :: calls), e.
      rewrite records_cons, length_app, <- Hfresh, app_assoc.
      split; [by rewrite Hps|]. split.
      * rewrite Hrun'. unfold w1. simpl. by rewrite <- !app_assoc.
      * destruct Hcases as [(-> & He' & Hlen) | (-> & -> & Hlen)].
        -- left. simpl. auto 10.
        -- right. simpl. auto 10.
Qed.

End Pagination.

(** ** Pointers handed out by [alloc] *)

Lemma lookup_fresh (h fs : list File) :
  Forall2 (fun p f => (h ++ fs) !! p = Some f) (fresh_at (length h) (length fs)) fs.
Proof.
  revert h. induction fs as [|f fs IH]; intros h; [constructor|].
  simpl. constructor.
  - by rewrite list_lookup_middle.
  - specialize (IH (h ++ [f])). rewrite length_app, <- app_assoc in IH.
    simpl in IH. by rewrite Nat.add_1_r in IH.
Qed.

Lemma deref_all_fresh w fs n :
  deref_all (heap w ++ fs) (take n (fresh w (length fs))) = Some (take n fs).
Proof.
  unfold deref_all. apply mapM_Some. apply Forall2_take, lookup_fresh.
Qed.

Lemma length_fresh w n : length (fresh w n) = n.
Proof. apply length_seq. Qed.

Lemma NoDup_fresh w n : NoDup (fresh w n).
Proof. apply NoDup_seq. Qed.

(** [files[:min(len(files), n)]] keeps the first [n] elements. *)
Lemma slice_to_min {A} (files : list A) (n : Z) w :
  0 <= n ->
  slice_to files (min (len files) n) w = Ret (take (Z.to_nat n) files) w.
Proof.
  intros Hn. unfold slice_to, min, len.
  destruct (Z.leb_spec 0 (Z.min (Z.of_nat (length files)) n)); [|lia].
  destruct (Z.leb_spec (Z.min (Z.of_nat (length files)) n)
                       (Z.of_nat (length files))); [|lia].
  simpl. unfold ret. f_equal.
  destruct (Z.le_ge_cases (Z.of_nat (length files)) n).
  - rewrite Z.min_l, Nat2Z.id by done. rewrite !take_ge; [done|lia..].
  - by rewrite Z.min_r.
Qed.


(** ** listAllFiles *)

Lemma three_pages_run q fs o n :
  remote_run three_pages (mkCall q fs o n "") three_pages_list Exhausted.
Proof.
  unfold three_pages_list.
  eapply run_next; [reflexivity | discriminate |].
  eapply run_next; [reflexivity | discriminate |].
  eapply run_last; reflexivity.
Qed.

Lemma listAllFiles_unfold fuel self args w :
  listAllFiles fuel self args w =
  match Pages fuel self (listCall args) (collect (maxFiles args)) [] w with
  | Ret r w' => afterPages (maxFiles args) r w'
  | Panic w' => Panic w'
  | OutOfFuel w' => OutOfFuel w'
  end.
Proof. reflexivity. Qed.

(** C1. With a maximum [N > 0] and a service that holds the pages [ps],
    [listAllFiles] returns, without error, pointers to the first [N] records
    of [ps] in the order they are served, [min N total] of them: they are the
    first [N] of the pointers accumulated while fetching the pages [got], a
    prefix of [ps], so what a page brings beyond [N] is dropped at the tail. *)
Theorem listAllFiles_returns_first_N self args ps fuel w :
  in_int64 (maxFiles args) ->
  0 < maxFiles args ->
  remote_run (service_Files_List self) (listCall args) ps Exhausted ->
  (length ps < fuel)%nat ->
  exists got rest calls ptrs,
    ps = got ++ rest /\
    listAllFiles fuel self args w =
      Ret (ptrs, None)
          (mkWorld (heap w ++ records got) (requests w ++ calls) (output w)) /\
    ptrs = take (Z.to_nat (maxFiles args)) (fresh w (length (records got))) /\
    deref_all (heap w ++ records got) ptrs
      = Some (take (Z.to_nat (maxFiles args)) (records ps)) /\
    len ptrs = Z.min (maxFiles args) (len (records ps)).
Proof.
  intros Hrange Hpos Hrun Hfuel.
  destruct (Pages_collect self (maxFiles args) _ _ _ Hrun fuel [] w Hfuel)
    as (got & rest & calls & e & Hps & Hpages & Hcases).
  exists got, rest, calls,
    (take (Z.to_nat (maxFiles args)) (fresh w (length (records got)))).
  simpl in Hpages, Hcases.
  assert (Hafter : afterPages (maxFiles args)
            (fresh w (length (records got)), e)
            (mkWorld (heap w ++ records got) (requests w ++ calls) (output w))
          = Ret (take (Z.to_nat (maxFiles args))
                      (fresh w (length (records got))), None)
                (mkWorld (heap w ++ records got) (requests w ++ calls)
                         (output w))).
  { assert (He : e = Some controlledStop \/ e = None)
      by (destruct Hcases as [(-> & _) | (_ & -> & _)]; auto).
    unfold afterPages.
    destruct (Z.ltb_spec 0 (maxFiles args)) as [_|]; [|lia].
    rewrite (int_in_range _ Hrange).
    destruct He as [-> | ->]; unfold bind;
      rewrite slice_to_min by lia; reflexivity. }
  split; [done|]. split; [by rewrite listAllFiles_unfold, Hpages|].
  split; [done|].
  assert (Htake : take (Z.to_nat (maxFiles args)) (records got)
                  = take (Z.to_nat (maxFiles args)) (records ps)).
  { destruct Hcases as [(_ & He & _) | (-> & _ & _)].
    - apply enough_true in He as [_ He]; [|done].
      unfold len in He. rewrite length_fresh in He.
      rewrite Hps, records_app, take_app_le; [done|lia].
    - by rewrite Hps, app_nil_r. }
  split.
  - rewrite deref_all_fresh. by rewrite Htake.
  - unfold len. rewrite length_take, length_fresh.
    assert (Hl : length (take (Z.to_nat (maxFiles args)) (records got))
               = length (take (Z.to_nat (maxFiles args)) (records ps)))
      by (by rewrite Htake).
    rewrite !length_take in Hl. lia.
Qed.

(** The three pages hold five records; with [N = 3] the second page
    overshoots and the run keeps exactly three. *)
Lemma listAllFiles_returns_first_N_witness :
  exists got rest calls ptrs,
    three_pages_list = got ++ rest /\
    listAllFiles 4 sample_drive (mkListAllFilesArgs "" listFields "" 3)
                 empty_world =
      Ret (ptrs, None)
          (mkWorld (heap empty_world ++ records got)
                   (requests empty_world ++ calls) (output empty_world)) /\
    ptrs = take (Z.to_nat 3) (fresh empty_world (length (records got))) /\
    deref_all (heap empty_world ++ records got) ptrs
      = Some (take (Z.to_nat 3) (records three_pages_list)) /\
    len ptrs = Z.min 3 (len (records three_pages_list)).
Proof.
  apply (listAllFiles_returns_first_N sample_drive
           (mkListAllFilesArgs "" listFields "" 3) three_pages_list 4%nat
           empty_world).
  - unfold in_int64. simpl. lia.
  - simpl. lia.
  - apply three_pages_run.
  - simpl. lia.
Defined.

Example listAllFiles_three_of_five :
  listAllFiles 4 sample_drive (mkListAllFilesArgs "" listFields "" 3) empty_world
  = Ret ([0; 1; 2]%nat, None)
        (mkWorld [file_a; file_b; file_c; file_d]
                 [mkCall "" listFields "" 3 ""; mkCall "" listFields "" 3 "t1"]
                 []).
Proof. vm_compute. reflexivity. Qed.

(** *** No maximum *)

Lemma afterPages_nonpos N files e w :
  N <= 0 ->
  afterPages N (files, e) w =
  Ret (match e with
       | Some (External _ as e') | Some (Errorf _ as e') => ([], Some e')
       | _ => (files, None)
       end) w.
Proof.
  intros HN. unfold afterPages.
  destruct (Z.ltb_spec 0 N); [lia|]. by destruct e as [[]|].
Qed.

(** Without a positive maximum every page is fetched and every record is
    returned, or the failure that ends the walk is. *)
Lemma listAllFiles_nonpos self args ps o fuel w :
  maxFiles args <= 0 ->
  remote_run (service_Files_List self) (listCall args) ps o ->
  (length ps < fuel)%nat ->
  exists calls,
    listAllFiles fuel self args w =
      Ret (match o with
           | Exhausted => (fresh w (length (records ps)), None)
           | Failed msg => ([], Some (External msg))
           end)
          (mkWorld (heap w ++ records ps) (requests w ++ calls) (output w)) /\
    length calls =
      (length ps + match o with Exhausted => 0 | Failed _ => 1 end)%nat.
Proof.
  intros HN Hrun Hfuel.
  destruct (Pages_collect self (maxFiles args) _ _ _ Hrun fuel [] w Hfuel)
    as (got & rest & calls & e & Hps & Hpages & Hcases).
  destruct Hcases as [(_ & He & _) | (-> & -> & Hlen)].
  { by rewrite enough_false_nonpos in He. }
  rewrite app_nil_r in Hps. subst got. exists calls. split; [|done].
  rewrite listAllFiles_unfold, Hpages, afterPages_nonpos by done.
  by destruct o.
Qed.

(** C3. With [N = 0] and a service that holds the pages [ps],
    [listAllFiles] asks for every page ([length ps] requests), returns
    pointers to all the records of [ps], in order, and no error. *)
Theorem listAllFiles_unbounded_returns_all self args ps fuel w :
  maxFiles args = 0 ->
  remote_run (service_Files_List self) (listCall args) ps Exhausted ->
  (length ps < fuel)%nat ->
  exists calls,
    listAllFiles fuel self args w =
      Ret (fresh w (length (records ps)), None)
          (mkWorld (heap w ++ records ps) (requests w ++ calls) (output w)) /\
    length calls = length ps /\
    deref_all (heap w ++ records ps) (fresh w (length (records ps)))
      = Some (records ps).
Proof.
  intros HN Hrun Hfuel.
  destruct (listAllFiles_nonpos self args ps Exhausted fuel w) as (calls & Hret & Hlen);
    [lia | done | done |].
  exists calls. split; [done|]. split; [lia|].
  pose proof (deref_all_fresh w (records ps) (length (records ps))) as Hd.
  rewrite !take_ge in Hd; [done | lia | rewrite length_fresh; lia].
Qed.

Lemma listAllFiles_unbounded_returns_all_witness :
  exists calls,
    listAllFiles 4 sample_drive (mkListAllFilesArgs "" listFields "" 0)
                 empty_world =
      Ret (fresh empty_world (length (records three_pages_list)), None)
          (mkWorld (heap empty_world ++ records three_pages_list)
                   (requests empty_world ++ calls) (output empty_world)) /\
    length calls = length three_pages_list /\
    deref_all (heap empty_world ++ records three_pages_list)
              (fresh empty_world (length (records three_pages_list)))
      = Some (records three_pages_list).
Proof.
  apply (listAllFiles_unbounded_returns_all sample_drive
           (mkListAllFilesArgs "" listFields "" 0) three_pages_list 4%nat
           empty_world).
  - reflexivity.
  - apply three_pages_run.
  - simpl. lia.
Defined.

Example listAllFiles_all_five :
  listAllFiles 4 sample_drive (mkListAllFilesArgs "" listFields "" 0) empty_world
  = Ret ([0; 1; 2; 3; 4]%nat, None)
        (mkWorld [file_a; file_b; file_c; file_d; file_e]
                 [mkCall "" listFields "" 1000 "";
                  mkCall "" listFields "" 1000 "t1";
                  mkCall "" listFields "" 1000 "t2"]
                 []).
Proof. vm_compute. reflexivity. Qed.

(** *** The requests sent *)

Lemma Pages_requests {St} self (f : FileList -> St -> St * option error) fuel :
  forall c s w,
  exists calls,
    requests (world_of (Pages fuel self c f s w)) = requests w ++ calls /\
    Forall (fun c' => PageSize c' = PageSize c) calls /\
    (fuel <> 0%nat -> calls <> []).
Proof.
  induction fuel as [|fuel IH]; intros c s w.
  - exists []. simpl. rewrite app_nil_r. auto.
  - rewrite Pages_step. cbv zeta.
    destruct (service_Files_List self c) as [msg|p].
    { exists [c]. simpl. auto. }
    destruct (f _ s) as [s' [e|]].
    { exists [c]. simpl. auto. }
    destruct (String.eqb _ _).
    { exists [c]. simpl. auto. }
    destruct (IH (with_PageToken c (page_next p)) s'
                 (mkWorld (heap w ++ page_files p) (requests w ++ [c]) (output w)))
      as (calls & Hreq & Hall & _).
    exists (c :: calls). rewrite Hreq. simpl. rewrite <- app_assoc.
    split; [done|]. split; [|done]. constructor; [done|]. exact Hall.
Qed.

Lemma afterPages_world N r w : world_of (afterPages N r w) = w.
Proof.
  destruct r as [files e]. unfold afterPages, bind, slice_to.
  destruct e as [[]|]; try done;
    destruct (0 <? N); try done;
    destruct (_ && _); done.
Qed.

Lemma listAllFiles_world fuel self args w :
  world_of (listAllFiles fuel self args w)
  = world_of (Pages fuel self (listCall args) (collect (maxFiles args)) [] w).
Proof.
  rewrite listAllFiles_unfold.
  destruct (Pages _ _ _ _ _ _) as [r w'| |]; [|done..].
  apply afterPages_world.
Qed.

Lemma pageSizeOf_cases N :
  (0 < N < 1000 -> pageSizeOf N = N) /\
  (~ 0 < N < 1000 -> pageSizeOf N = 1000).
Proof.
  unfold pageSizeOf.
  destruct (Z.ltb_spec 0 N), (Z.ltb_spec N 1000); simpl; lia.
Qed.

(** C4. Every request that [listAllFiles] sends, however the run ends,
    carries one page size: [N] when [0 < N < 1000] and [1000] otherwise; it
    is at most [1000], and at most [min N 1000] when [N > 0].  A run with
    fuel sends at least one request. *)
Theorem listAllFiles_page_size fuel self args w :
  exists calls,
    requests (world_of (listAllFiles fuel self args w)) = requests w ++ calls /\
    (fuel <> 0%nat -> calls <> []) /\
    Forall (fun c => PageSize c = pageSizeOf (maxFiles args) /\
                     PageSize c <= 1000 /\
                     (0 < maxFiles args ->
                      PageSize c <= Z.min (maxFiles args) 1000) /\
                     (0 < maxFiles args < 1000 -> PageSize c = maxFiles args) /\
                     (~ 0 < maxFiles args < 1000 -> PageSize c = 1000)) calls.
Proof.
  rewrite listAllFiles_world.
  destruct (Pages_requests self (collect (maxFiles args)) fuel
              (listCall args) [] w) as (calls & Hreq & Hall & Hne).
  exists calls. split; [done|]. split; [done|].
  eapply Forall_impl; [exact Hall|]. intros c Hc. simpl in Hc.
  destruct (pageSizeOf_cases (maxFiles args)) as [Hin Hout].
  rewrite Hc. split; [done|].
  destruct (Z_lt_dec 0 (maxFiles args)), (Z_lt_dec (maxFiles args) 1000);
    try (rewrite Hin by lia; lia); rewrite Hout by lia; lia.
Qed.

(** *** A negative maximum *)

Lemma Pages_ext {St} self (f g : FileList -> St -> St * option error) :
  (forall x s, f x s = g x s) ->
  forall fuel c s w, Pages fuel self c f s w = Pages fuel self c g s w.
Proof.
  intros Hfg. induction fuel as [|fuel IH]; intros c s w; [done|].
  rewrite !Pages_step. cbv zeta.
  destruct (service_Files_List self c) as [msg|p]; [done|].
  rewrite Hfg. destruct (g _ s) as [s' [e|]]; [done|].
  destruct (String.eqb _ _); [done|]. apply IH.
Qed.

Lemma collect_nonpos N fl files : N <= 0 -> collect N fl files = collect 0 fl files.
Proof.
  intros HN. rewrite !collect_eq, !enough_false_nonpos by lia. done.
Qed.

(** What [Pages] leaves behind when it returns under the closure of
    [listAllFiles]: the heap has grown by the files fetched, the closure's
    variable by their pointers, nothing was output; the sentinel comes back
    only when the closure's test held, and any other error is [External]. *)
Lemma Pages_collect_inv self N fuel :
  forall c acc w files e w',
  Pages fuel self c (collect N) acc w = Ret (files, e) w' ->
  exists new,
    heap w' = heap w ++ new /\
    files = acc ++ fresh w (length new) /\
    output w' = output w /\
    match e with
    | Some controlledStop => enough N files = true
    | Some (Errorf _) => False
    | Some (External _) | None => True
    end.
Proof.
  induction fuel as [|fuel IH]; intros c acc w files e w'; [done|].
  rewrite Pages_step. cbv zeta.
  destruct (service_Files_List self c) as [msg|p].
  { intros [= <- <- <-]. exists []. simpl. by rewrite !app_nil_r. }
  rewrite collect_eq. simpl Files.
  destruct (enough N _) eqn:He.
  { intros [= <- <- <-]. exists (page_files p). simpl. done. }
  destruct (String.eqb _ _).
  { intros [= <- <- <-]. exists (page_files p). simpl. done. }
  intros Hrec. apply IH in Hrec as (new & Hheap & Hfiles & Hout & He').
  simpl in Hheap, Hout.
  assert (Hfresh : fresh_at (length (heap w)) (length (page_files p))
                   ++ fresh (mkWorld (heap w ++ page_files p)
                                     (requests w ++ [c]) (output w)) (length new)
                   = fresh w (length (page_files p ++ new))).
  { unfold fresh, fresh_at. simpl. rewrite !length_app. symmetry. apply seq_app. }
  exists (page_files p ++ new).
  rewrite Hheap, Hfiles, <- !app_assoc, Hfresh. split; [done|]. split; [done|].
  split; [done|].
  destruct e as [[]|]; [|done..].
  by rewrite Hfiles, <- app_assoc, Hfresh in He'.
Qed.

Lemma listAllFiles_nonpos_eq self args fuel w :
  maxFiles args <= 0 ->
  listAllFiles fuel self args w = listAllFiles fuel self (with_maxFiles args 0) w.
Proof.
  intros HN. rewrite !listAllFiles_unfold.
  assert (Hcall : listCall args = listCall (with_maxFiles args 0)).
  { unfold listCall. simpl. f_equal.
    destruct (pageSizeOf_cases (maxFiles args)) as [_ ->]; [done|lia]. }
  rewrite <- Hcall. simpl maxFiles.
  rewrite (Pages_ext self (collect (maxFiles args)) (collect 0))
    by (intros; by apply collect_nonpos).
  destruct (Pages _ _ _ _ _ _) as [[files e] w'| |]; [|done..].
  by rewrite !afterPages_nonpos by lia.
Qed.

(** C9. With [N < 0], [listAllFiles] does in every world and with every fuel
    what it does with [N = 0]; the page size is [1000]; the closure never
    returns the sentinel; and against a service that holds the pages [ps]
    every page is asked for and all the records are returned. *)
Theorem listAllFiles_negative_is_unbounded self args :
  maxFiles args < 0 ->
  (forall fuel w,
     listAllFiles fuel self args w
     = listAllFiles fuel self (with_maxFiles args 0) w) /\
  PageSize (listCall args) = 1000 /\
  (forall fuel w files e w',
     Pages fuel self (listCall args) (collect (maxFiles args)) [] w
       = Ret (files, e) w' ->
     e <> Some controlledStop /\
     (e = None -> listAllFiles fuel self args w = Ret (files, None) w')) /\
  (forall ps fuel w,
     remote_run (service_Files_List self) (listCall args) ps Exhausted ->
     (length ps < fuel)%nat ->
     exists calls,
       listAllFiles fuel self args w =
         Ret (fresh w (length (records ps)), None)
             (mkWorld (heap w ++ records ps) (requests w ++ calls) (output w)) /\
       length calls = length ps /\
       deref_all (heap w ++ records ps) (fresh w (length (records ps)))
         = Some (records ps)).
Proof.
  intros HN. repeat split.
  - intros. apply listAllFiles_nonpos_eq. lia.
  - simpl. destruct (pageSizeOf_cases (maxFiles args)) as [_ ->]; [done|lia].
  - intros ->. apply Pages_collect_inv in H as (new & _ & _ & _ & He).
    rewrite enough_false_nonpos in He by lia. done.
  - intros ->. rewrite listAllFiles_unfold, H. apply afterPages_nonpos. lia.
  - intros ps fuel w Hrun Hfuel.
    destruct (listAllFiles_nonpos self args ps Exhausted fuel w)
      as (calls & Hret & Hlen); [lia | done | done |].
    exists calls. split; [done|]. split; [lia|].
    pose proof (deref_all_fresh w (records ps) (length (records ps))) as Hd.
    rewrite !take_ge in Hd; [done | lia | rewrite length_fresh; lia].
Qed.

Lemma listAllFiles_negative_is_unbounded_witness :
  listAllFiles 4 sample_drive (mkListAllFilesArgs "" listFields "" (-7))
               empty_world
  = listAllFiles 4 sample_drive (mkListAllFilesArgs "" listFields "" 0)
                 empty_world.
Proof.
  apply (proj1 (listAllFiles_negative_is_unbounded sample_drive
                  (mkListAllFilesArgs "" listFields "" (-7))
                  ltac:(simpl; lia))).
Defined.

Example listAllFiles_negative_all_five :
  listAllFiles 4 sample_drive (mkListAllFilesArgs "" listFields "" (-7))
               empty_world
  = Ret ([0; 1; 2; 3; 4]%nat, None)
        (mkWorld [file_a; file_b; file_c; file_d; file_e]
                 [mkCall "" listFields "" 1000 "";
                  mkCall "" listFields "" 1000 "t1";
                  mkCall "" listFields "" 1000 "t2"]
                 []).
Proof. vm_compute. reflexivity. Qed.

(** *** Errors *)

Lemma afterPages_error N r w files e w' :
  afterPages N r w = Ret (files, Some e) w' ->
  snd r = Some e /\ e <> controlledStop /\ files = [] /\ w' = w.
Proof.
  destruct r as [fs err]. unfold afterPages, bind, slice_to.
  destruct err as [[]|]; simpl.
  - destruct (0 <? N); [destruct (_ && _)|]; done.
  - by intros [= <- <- <-].
  - by intros [= <- <- <-].
  - destruct (0 <? N); [destruct (_ && _)|]; done.
Qed.

Lemma afterPages_stop N files w :
  in_int64 N -> enough N files = true ->
  afterPages N (files, Some controlledStop) w
  = Ret (take (Z.to_nat N) files, None) w.
Proof.
  intros Hrange He. apply enough_true in He as [Hpos Hlen]; [|done].
  unfold afterPages. destruct (Z.ltb_spec 0 N); [|lia].
  rewrite (int_in_range _ Hrange). unfold bind.
  by rewrite slice_to_min by lia.
Qed.

Lemma absPathLoop_error self files :
  forall w e w', absPathLoop self files w = Ret (Some e) w' ->
  exists msg, e = External msg.
Proof.
  induction files as [|p files IH]; intros w e w'; [done|].
  simpl. unfold bind, deref, store.
  destruct (heap w !! p) as [f|]; [|done].
  destruct (absPath self f) as [name [msg|]]; simpl.
  - intros [= <- <-]. by exists msg.
  - apply IH.
Qed.

Section ListErrors.
Context `{Util}.

Lemma List_unfold fuel self args w :
  List fuel self args w =
  match listAllFiles fuel self (listArgsOf args) w with
  | Ret (files, Some e) w1 =>
      Ret (Some (Errorf ("Failed to list files: " +:+ Error e))) w1
  | Ret (files, None) w1 =>
      match (if ListFilesArgs.AbsPath args then absPathLoop self files
             else ret None) w1 with
      | Ret (Some e) w2 => Ret (Some e) w2
      | Ret None w2 =>
          match (if ListFilesArgs.UseCsv args
                 then PrintFileList (printArgsOf args files)
                 else PrintTabbedFileList (printArgsOf args files)) w2 with
          | Ret _ w3 => Ret None w3
          | Panic w3 => Panic w3
          | OutOfFuel w3 => OutOfFuel w3
          end
      | Panic w2 => Panic w2
      | OutOfFuel w2 => OutOfFuel w2
      end
  | Panic w1 => Panic w1
  | OutOfFuel w1 => OutOfFuel w1
  end.
Proof.
  unfold List, bind.
  destruct (listAllFiles _ _ _ _) as [[files [e|]] w1| |]; try done.
  destruct (_ w1) as [[e|] w2| |]; done.
Qed.

(** C2. [listAllFiles] and [List] never return the sentinel; when [Pages]
    ends with the sentinel, [listAllFiles] returns the truncated files and a
    nil error; when a fetch fails before the closure asks to stop,
    [listAllFiles] returns that very error with no files and [List] returns
    an error whose text is the failure's after the words
    "Failed to list files: ", nothing having been written. *)
Theorem controlledStop_never_returned_failures_are fuel self args w :
  (forall files,
     returned (listAllFiles fuel self (listArgsOf args) w)
     <> Some (files, Some controlledStop)) /\
  returned (List fuel self args w) <> Some (Some controlledStop) /\
  (forall files w1,
     in_int64 (ListFilesArgs.MaxFiles args) ->
     Pages fuel self (listCall (listArgsOf args))
           (collect (ListFilesArgs.MaxFiles args)) [] w
       = Ret (files, Some controlledStop) w1 ->
     listAllFiles fuel self (listArgsOf args) w
     = Ret (take (Z.to_nat (ListFilesArgs.MaxFiles args)) files, None) w1) /\
  (forall ps msg,
     in_int64 (ListFilesArgs.MaxFiles args) ->
     remote_run (service_Files_List self) (listCall (listArgsOf args)) ps
                (Failed msg) ->
     (0 < ListFilesArgs.MaxFiles args ->
      len (records ps) < ListFilesArgs.MaxFiles args) ->
     (length ps < fuel)%nat ->
     exists calls,
       let w1 := mkWorld (heap w ++ records ps) (requests w ++ calls)
                         (output w) in
       listAllFiles fuel self (listArgsOf args) w
         = Ret ([], Some (External msg)) w1 /\
       List fuel self args w
         = Ret (Some (Errorf ("Failed to list files: " +:+ msg))) w1).
Proof.
  split; [|split; [|split]].
  - intros files Hret. rewrite listAllFiles_unfold in Hret.
    destruct (Pages _ _ _ _ _ _) as [r w'| |]; [|done..].
    destruct (afterPages _ r w') as [[fs e] w''| |] eqn:Hafter; [|done..].
    simpl in Hret. injection Hret as -> ->.
    apply afterPages_error in Hafter as (_ & Hne & _). done.
  - intros Hret. rewrite List_unfold in Hret.
    destruct (listAllFiles _ _ _ _) as [[files [e|]] w1| |]; try done.
    destruct (ListFilesArgs.AbsPath args).
    + destruct (absPathLoop self files w1) as [[e|] w2| |] eqn:Hloop; try done.
      * apply absPathLoop_error in Hloop as [msg ->]. done.
      * by destruct (_ w2).
    + simpl in Hret. by destruct (_ w1).
  - intros files w1 Hrange Hpages.
    rewrite listAllFiles_unfold. simpl maxFiles. rewrite Hpages.
    apply Pages_collect_inv in Hpages as (new & _ & _ & _ & He).
    by apply afterPages_stop.
  - intros ps msg Hrange Hrun Hbelow Hfuel.
    destruct (Pages_collect self (ListFilesArgs.MaxFiles args) _ _ _ Hrun
                fuel [] w Hfuel)
      as (got & rest & calls & e & Hps & Hpages & Hcases).
    destruct Hcases as [(_ & He & _) | (-> & -> & _)].
    { apply enough_true in He as [Hpos He]; [|done].
      specialize (Hbelow Hpos). simpl in He. unfold len in He, Hbelow.
      rewrite length_fresh in He. rewrite Hps, records_app, length_app in Hbelow.
      lia. }
    rewrite app_nil_r in Hps. subst got. exists calls. cbv zeta.
    assert (Hlist : listAllFiles fuel self (listArgsOf args) w
              = Ret ([], Some (External msg))
                    (mkWorld (heap w ++ records ps) (requests w ++ calls)
                             (output w))).
    { rewrite listAllFiles_unfold. simpl maxFiles. by rewrite Hpages. }
    split; [done|]. by rewrite List_unfold, Hlist.
Qed.

End ListErrors.

Lemma failing_service_run q fs o n :
  remote_run failing_service (mkCall q fs o n "") failing_pages
             (Failed "backend error").
Proof.
  eapply run_next; [reflexivity | discriminate |].
  apply run_failed. reflexivity.
Qed.

Lemma controlledStop_never_returned_failures_are_witness :
  exists calls,
    let w1 := mkWorld (heap empty_world ++ records failing_pages)
                      (requests empty_world ++ calls) (output empty_world) in
    listAllFiles 3 failing_drive
                 (listArgsOf (sample_args 0 false true false)) empty_world
      = Ret ([], Some (External "backend error")) w1 /\
    @List sample_util 3 failing_drive (sample_args 0 false true false)
          empty_world
      = Ret (Some (Errorf ("Failed to list files: " +:+ "backend error"))) w1.
Proof.
  apply (proj2 (proj2 (proj2
           (@controlledStop_never_returned_failures_are sample_util 3%nat
              failing_drive (sample_args 0 false true false) empty_world)))
           failing_pages "backend error").
  - unfold in_int64. simpl. lia.
  - apply failing_service_run.
  - simpl. lia.
  - simpl. lia.
Defined.

Example List_fetch_failure :
  @List sample_util 3 failing_drive (sample_args 5 false true false) empty_world
  = Ret (Some (Errorf "Failed to list files: backend error"))
        (mkWorld [file_a; file_b]
                 [mkCall "trashed = false" listFields "" 5 "";
                  mkCall "trashed = false" listFields "" 5 "t1"] []).
Proof. vm_compute. reflexivity. Qed.

(** ** Rendering *)

Lemma string_app_assoc (s t u : string) : (s +:+ t) +:+ u = s +:+ (t +:+ u).
Proof.
  induction s as [|a s IH]; [done|].
  change (String a ((s +:+ t) +:+ u) = String a (s +:+ (t +:+ u))).
  by rewrite IH.
Qed.

Lemma Fprintf5_tabbed_line w a b c d e :
  Fprintf5 w a b c d e
  = mkTabWriter (tab_dst w)
                (tab_pending w ++ [TabLine (tabbed_line [a; b; c; d; e])]).
Proof.
  unfold Fprintf5, tab_print, tabbed_line. simpl.
  by rewrite !string_app_assoc.
Qed.

Lemma csv_WriteEach_valid records : forall w,
  validDelim (Comma w) = true ->
  csv_WriteEach w records
  = (mkCsvWriter (csv_dst w) (Comma w)
                 (csv_pending w ++ map (CsvRecord (Comma w)) records), None).
Proof.
  induction records as [|r records IH]; intros [dst comma pending] Hv;
    simpl in *.
  - by rewrite app_nil_r.
  - unfold csv_Write. simpl. rewrite Hv, IH by done. simpl.
    by rewrite <- app_assoc.
Qed.

Lemma csv_WriteEach_invalid records w :
  validDelim (Comma w) = false ->
  csv_WriteEach w records
  = (w, match records with [] => None | _ => Some errInvalidDelim end).
Proof.
  intros Hv. destruct records as [|r records]; [done|].
  simpl. unfold csv_Write. by rewrite Hv.
Qed.






Lemma deref_all_Forall2 h ptrs fs :
  deref_all h ptrs = Some fs <-> Forall2 (fun p f => h !! p = Some f) ptrs fs.
Proof. apply mapM_Some. Qed.

Lemma deref_all_None h ptrs :
  deref_all h ptrs = None -> exists p, p ∈ ptrs /\ h !! p = None.
Proof.
  unfold deref_all. intros Hnone. apply mapM_None in Hnone.
  apply Exists_exists in Hnone as (p & Hin & Hp). eauto.
Qed.

Section RenderingFacts.
Context `{Util}.
Import PrintFileListArgs.

Lemma csvRecords_ok args w files fs :
  Forall2 (fun p f => heap w !! p = Some f) files fs ->
  forall records,
  csvRecords args files records w
  = Ret (records ++ map (cells (NameWidth args) (SizeInBytes args)
                               (UseExtended args)) fs) w.
Proof.
  induction 1 as [|p f files fs Hp _ IH]; intros records; simpl.
  - by rewrite app_nil_r.
  - unfold bind, deref. rewrite Hp, IH, <- app_assoc. simpl.
    unfold cells. by destruct (UseExtended args).
Qed.

Lemma csvRecords_panic args w files :
  (exists p, p ∈ files /\ heap w !! p = None) ->
  forall records, csvRecords args files records w = Panic w.
Proof.
  intros (p & Hin & Hp).
  induction files as [|q files IH]; intros records; [by apply elem_of_nil in Hin|].
  simpl. unfold bind, deref.
  destruct (heap w !! q) as [f|] eqn:Hq; [|done].
  apply IH. apply elem_of_cons in Hin as [->|Hin]; [congruence|done].
Qed.

Lemma tabbedLines_ok args files fs w0 :
  Forall2 (fun p f => heap w0 !! p = Some f) files fs ->
  forall w,
  tabbedLines args files w w0
  = Ret (mkTabWriter (tab_dst w)
           (tab_pending w
            ++ map (fun f => TabLine (tabbed_line
                      (cells (NameWidth args) (SizeInBytes args) false f))) fs))
        w0.
Proof.
  induction 1 as [|p f files fs Hp _ IH]; intros w; simpl.
  - rewrite app_nil_r. by destruct w.
  - unfold bind, deref. rewrite Hp, IH, Fprintf5_tabbed_line. simpl.
    by rewrite <- app_assoc.
Qed.

Lemma tabbedLines_panic args w0 files :
  (exists p, p ∈ files /\ heap w0 !! p = None) ->
  forall w, tabbedLines args files w w0 = Panic w0.
Proof.
  intros (p & Hin & Hp).
  induction files as [|q files IH]; intros w; [by apply elem_of_nil in Hin|].
  simpl. unfold bind, deref.
  destruct (heap w0 !! q) as [f|] eqn:Hq; [|done].
  apply IH. apply elem_of_cons in Hin as [->|Hin]; [congruence|done].
Qed.

Lemma PrintFileList_ok args w fs :
  deref_all (heap w) (Files args) = Some fs ->
  PrintFileList args w
  = Ret tt (mkWorld (heap w) (requests w)
                    (output w ++ map (pair os_Stdout)
                                     (if validDelim (Delimiter args)
                                      then csv_rows args fs else []))).
Proof.
  intros Hfs. apply deref_all_Forall2 in Hfs.
  unfold PrintFileList. cbv zeta.
  set (w0 := if negb (SkipHeader args) then _ else _).
  assert (Hw0 : w0 = mkCsvWriter os_Stdout (Delimiter args)
            (if validDelim (Delimiter args)
             then (if SkipHeader args then []
                   else [CsvRecord (Delimiter args)
                                   (columns (UseExtended args))])
             else [])).
  { subst w0. unfold csv_Write, set_Comma, csv_NewWriter, columns. simpl.
    destruct (SkipHeader args), (validDelim (Delimiter args)),
      (UseExtended args); reflexivity. }
  clearbody w0. subst w0.
  unfold bind. rewrite (csvRecords_ok _ _ _ _ Hfs). simpl.
  unfold csv_WriteAll.
  destruct (validDelim (Delimiter args)) eqn:Hv.
  - rewrite csv_WriteEach_valid by done.
    unfold csv_Flush, bind, emit, ret. simpl. rewrite app_nil_r.
    do 3 f_equal. unfold csv_rows.
    by rewrite (List.map_map (cells _ _ _)).
  - rewrite csv_WriteEach_invalid by done.
    destruct (map _ fs); unfold csv_Flush, bind, emit, ret; simpl;
      by rewrite ?app_nil_r.
Qed.

Lemma PrintFileList_panic args w :
  deref_all (heap w) (Files args) = None -> PrintFileList args w = Panic w.
Proof.
  intros Hnone. apply deref_all_None in Hnone.
  unfold PrintFileList, bind. by rewrite csvRecords_panic.
Qed.

Lemma PrintTabbedFileList_ok args w fs :
  deref_all (heap w) (Files args) = Some fs ->
  PrintTabbedFileList args w
  = Ret tt (mkWorld (heap w) (requests w)
                    (output w ++ map (pair (Out args)) (tabbed_rows args fs))).
Proof.
  intros Hfs. apply deref_all_Forall2 in Hfs.
  unfold PrintTabbedFileList, bind. rewrite (tabbedLines_ok _ _ _ _ Hfs).
  unfold tab_Flush, bind, emit, ret. simpl. do 3 f_equal.
  unfold tabbed_rows. by destruct (SkipHeader args).
Qed.

Lemma PrintTabbedFileList_panic args w :
  deref_all (heap w) (Files args) = None -> PrintTabbedFileList args w = Panic w.
Proof.
  intros Hnone. apply deref_all_None in Hnone.
  unfold PrintTabbedFileList, bind. by rewrite tabbedLines_panic.
Qed.



End RenderingFacts.

(** *** What [List] writes *)

Lemma Pages_output {St} self (f : FileList -> St -> St * option error) fuel :
  forall c s w, output (world_of (Pages fuel self c f s w)) = output w.
Proof.
  induction fuel as [|fuel IH]; intros c s w; [done|].
  rewrite Pages_step. cbv zeta.
  destruct (service_Files_List self c) as [msg|p]; [done|].
  destruct (f _ s) as [s' [e|]]; [done|].
  destruct (String.eqb _ _); [done|]. by rewrite IH.
Qed.

Lemma listAllFiles_output fuel self args w :
  output (world_of (listAllFiles fuel self args w)) = output w.
Proof. rewrite listAllFiles_world. apply Pages_output. Qed.

Lemma absPathLoop_output self files :
  forall w, output (world_of (absPathLoop self files w)) = output w.
Proof.
  induction files as [|p files IH]; intros w; [done|].
  simpl. unfold bind, deref, store.
  destruct (heap w !! p) as [f|]; [|done].
  destruct (absPath self f) as [name [msg|]]; simpl; [done|].
  by rewrite IH.
Qed.

Section ListOutput.
Context `{Util}.

(** Whatever [List] does, either it writes nothing, or it returns nil having
    written one rendering of some files: the delimited one, with the
    arguments built at list.go:52-60, to the standard output, or the tabbed
    one to the writer of its arguments. *)
Lemma List_output fuel self args w :
  output (world_of (List fuel self args w)) = output w \/
  exists ptrs fs,
    returned (List fuel self args w) = Some None /\
    output (world_of (List fuel self args w)) =
      output w ++
      (if ListFilesArgs.UseCsv args
       then map (pair os_Stdout) (csv_rows (printArgsOf args ptrs) fs)
       else map (pair (ListFilesArgs.Out args))
                (tabbed_rows (printArgsOf args ptrs) fs)).
Proof.
  rewrite List_unfold.
  pose proof (listAllFiles_output fuel self (listArgsOf args) w) as Hlist.
  destruct (listAllFiles _ _ _ _) as [[ptrs [e|]] w1| |]; simpl in Hlist; auto.
  set (o := (if ListFilesArgs.AbsPath args then absPathLoop self ptrs
             else ret None) w1).
  assert (Hloop : output (world_of o) = output w).
  { subst o. destruct (ListFilesArgs.AbsPath args); [|done].
    by rewrite absPathLoop_output. }
  clearbody o. destruct o as [[e|] w2| |]; simpl in Hloop; auto.
  destruct (deref_all (heap w2) ptrs) as [fs|] eqn:Hfs.
  - right. exists ptrs, fs.
    destruct (ListFilesArgs.UseCsv args).
    + rewrite (PrintFileList_ok _ _ fs) by done. simpl. by rewrite Hloop.
    + rewrite (PrintTabbedFileList_ok _ _ fs) by done. simpl. by rewrite Hloop.
  - left. destruct (ListFilesArgs.UseCsv args).
    + by rewrite PrintFileList_panic.
    + by rewrite PrintTabbedFileList_panic.
Qed.

End ListOutput.

Lemma csv_rows_delimiter `{Util} args fs :
  Forall (fun r => delimiter_of r = Some (PrintFileListArgs.Delimiter args))
         (csv_rows args fs).
Proof.
  unfold csv_rows. apply Forall_app. split.
  - destruct (PrintFileListArgs.SkipHeader args); repeat constructor.
  - apply Forall_map, Forall_forall. by intros f _.
Qed.

Lemma tabbed_rows_delimiter `{Util} args fs :
  Forall (fun r => delimiter_of r = None) (tabbed_rows args fs).
Proof.
  unfold tabbed_rows. apply Forall_app. split.
  - destruct (PrintFileListArgs.SkipHeader args); repeat constructor.
  - apply Forall_map, Forall_forall. by intros f _.
Qed.

(** Every delimited record that [List] writes is delimited by ['|']. *)
Lemma List_rows_delimiter `{Util} fuel self args w :
  exists rows,
    output (world_of (List fuel self args w)) = output w ++ rows /\
    Forall (fun x => forall d, delimiter_of (snd x) = Some d -> d = 124) rows.
Proof.
  destruct (List_output fuel self args w) as [Hout | (ptrs & fs & _ & Hout)].
  { exists []. by rewrite app_nil_r. }
  eexists. split; [exact Hout|].
  destruct (ListFilesArgs.UseCsv args); apply Forall_map.
  - eapply Forall_impl; [apply csv_rows_delimiter|].
    simpl. intros r Hr d Hd. congruence.
  - eapply Forall_impl; [apply tabbed_rows_delimiter|].
    simpl. intros r Hr d Hd. congruence.
Qed.




Example PrintFileList_extended :
  output (world_of (@PrintFileList sample_util (print_args false true 59)
                                   listed_world))
  = [ (os_Stdout, CsvRecord 59 ["Id"; "Name"; "Type"; "Size"; "Created";
                                "Checksum"; "HeadRevisionId"]);
      (os_Stdout, CsvRecord 59 ["id-a"; "a.txt"; "bin"; "some"; "2020-01-01";
                                "d41d8cd9"; "r1"]);
      (os_Stdout, CsvRecord 59 ["id-b"; "photos"; "dir"; ""; "2020-01-02";
                                ""; ""]);
      (os_Stdout, CsvRecord 59 ["id-c"; "c.bin"; "bin"; "some"; "2020-01-03";
                                "900150983cd2"; "r3"]) ].
Proof. vm_compute. reflexivity. Qed.

Example PrintTabbedFileList_extended_skip_header :
  output (world_of (@PrintTabbedFileList sample_util (print_args true true 59)
                                         listed_world))
  = [ (Sink 1, TabLine (tabbed_line ["id-a"; "a.txt"; "bin"; "some"; "2020-01-01"]));
      (Sink 1, TabLine (tabbed_line ["id-b"; "photos"; "dir"; ""; "2020-01-02"]));
      (Sink 1, TabLine (tabbed_line ["id-c"; "c.bin"; "bin"; "some"; "2020-01-03"])) ].
Proof. vm_compute. reflexivity. Qed.

(** C7. [List] in delimited mode with [Out] set to a writer of the caller's:
    the header and both records go to the standard output and nothing
    reaches [Out]; in tabbed mode, from the same arguments, the three lines
    go to [Out]. *)
Example List_csv_bypasses_Out :
  let csv := world_of (@List sample_util 4 sample_drive
                             (sample_args 2 false true false) empty_world) in
  let tabbed := world_of (@List sample_util 4 sample_drive
                                (sample_args 2 false false false) empty_world) in
  ListFilesArgs.Out (sample_args 2 false true false) = Sink 1 /\
  written_to (Sink 1) (output csv) = [] /\
  written_to os_Stdout (output csv)
    = [ CsvRecord 124 ["Id"; "Name"; "Type"; "Size"; "Created"];
        CsvRecord 124 ["id-a"; "a.txt"; "bin"; "some"; "2020-01-01"];
        CsvRecord 124 ["id-b"; "photos"; "dir"; ""; "2020-01-02"] ] /\
  written_to os_Stdout (output tabbed) = [] /\
  written_to (Sink 1) (output tabbed)
    = [ TabLine (tabbed_line ["Id"; "Name"; "Type"; "Size"; "Created"]);
        TabLine (tabbed_line ["id-a"; "a.txt"; "bin"; "some"; "2020-01-01"]);
        TabLine (tabbed_line ["id-b"; "photos"; "dir"; ""; "2020-01-02"]) ].
Proof. vm_compute. repeat split. Qed.

(** The delimited rendering never uses the writer of its arguments. *)
Lemma PrintFileList_destination `{Util} args w fs :
  deref_all (heap w) (PrintFileListArgs.Files args) = Some fs ->
  Forall (fun x => fst x = os_Stdout)
         (drop (length (output w)) (output (world_of (PrintFileList args w)))).
Proof.
  intros Hfs. rewrite (PrintFileList_ok _ _ fs) by done. simpl.
  rewrite drop_app_length. apply Forall_map, Forall_forall. by intros r _.
Qed.

(** C8, refuted as stated: [PrintFileList] encodes with the semicolon it is
    given, but no arguments, drive, fuel or helper functions make [List],
    started with nothing yet written, write a record delimited by a
    semicolon; and given the delimiter NUL, which the csv writer rejects,
    [PrintFileList] writes no record at all. *)
Lemma List_delimiter_not_selectable :
  (exists fields,
     In (os_Stdout, CsvRecord 59 fields)
        (output (world_of (@PrintFileList sample_util (print_args false false 59)
                                          listed_world)))) /\
  ~ (exists (U : Util) fuel self args dst fields,
       In (dst, CsvRecord 59 fields)
          (output (world_of (@List U fuel self args empty_world)))) /\
  (output (world_of (@PrintFileList sample_util (print_args false false 0)
                                    listed_world)) = []).
Proof.
  split; [|split].
  - exists ["Id"; "Name"; "Type"; "Size"; "Created"]. vm_compute. auto.
  - intros (U & fuel & self & args & dst & fields & Hin).
    destruct (@List_rows_delimiter U fuel self args empty_world)
      as (rows & Hout & Hall).
    rewrite Hout in Hin. simpl in Hin.
    rewrite Forall_forall in Hall. apply list_elem_of_In in Hin.
    specialize (Hall _ Hin 59 eq_refl). discriminate.
  - vm_compute. reflexivity.
Qed.

(** C8, amended. [PrintFileList] encodes every record it writes with the
    delimiter of its arguments: the header unless skipped and one record per
    file when the csv writer accepts that delimiter, no record when it does
    not; [List] passes ['|'] at list.go:58, which the csv writer accepts, so
    every delimited record it writes is delimited by ['|'] whatever its
    arguments. *)
Theorem delimiter_of_PrintFileList_and_of_List `{Util} :
  (forall args w fs,
     deref_all (heap w) (PrintFileListArgs.Files args) = Some fs ->
     exists rows,
       PrintFileList args w
         = Ret tt (mkWorld (heap w) (requests w)
                     (output w ++ map (pair os_Stdout) rows)) /\
       length rows
         = (if validDelim (PrintFileListArgs.Delimiter args)
            then (if PrintFileListArgs.SkipHeader args then 0 else 1)
                 + length fs
            else 0)%nat /\
       Forall (fun r => delimiter_of r
                        = Some (PrintFileListArgs.Delimiter args)) rows) /\
  (forall fuel self args w,
     (forall files,
        PrintFileListArgs.Delimiter (printArgsOf args files) = 124) /\
     validDelim 124 = true /\
     exists rows,
       output (world_of (List fuel self args w)) = output w ++ rows /\
       Forall (fun x => forall d, delimiter_of (snd x) = Some d -> d = 124)
              rows).
Proof.
  split.
  - intros args w fs Hfs.
    exists (if validDelim (PrintFileListArgs.Delimiter args)
            then csv_rows args fs else []).
    split; [by apply PrintFileList_ok|].
    destruct (validDelim _); [|by split; [|constructor]].
    split; [|apply csv_rows_delimiter].
    unfold csv_rows. rewrite length_app, length_map.
    by destruct (PrintFileListArgs.SkipHeader args).
  - intros fuel self args w. split; [done|]. split; [done|].
    apply List_rows_delimiter.
Qed.

Lemma delimiter_of_PrintFileList_and_of_List_witness :
  exists rows,
    @PrintFileList sample_util (print_args false false 59) listed_world
      = Ret tt (mkWorld (heap listed_world) (requests listed_world)
                  (output listed_world ++ map (pair os_Stdout) rows)) /\
    length rows = (1 + 3)%nat /\
    Forall (fun r => delimiter_of r = Some 59) rows.
Proof.
  apply (proj1 (@delimiter_of_PrintFileList_and_of_List sample_util)
               (print_args false false 59) listed_world
               [file_a; file_b; file_c] eq_refl).
Defined.

(** ** Absolute-path mode *)

Lemma afterPages_ok N files e w ptrs w' :
  afterPages N (files, e) w = Ret (ptrs, None) w' ->
  w' = w /\ exists n, ptrs = take n files.
Proof.
  unfold afterPages, bind, slice_to.
  assert (Hall : files = take (length files) files) by (by rewrite take_ge).
  destruct e as [[]|]; try done;
    (destruct (0 <? N);
     [destruct (_ && _); [|done]; intros [= <- <-]; eauto
     |intros [= <- <-]; eauto]).
Qed.

(** The pointers that [listAllFiles] returns are distinct and allocated, and
    nothing has been written when it returns. *)
Lemma listAllFiles_ptrs fuel self args w ptrs w1 :
  listAllFiles fuel self args w = Ret (ptrs, None) w1 ->
  NoDup ptrs /\ Forall (fun p => is_Some (heap w1 !! p)) ptrs /\
  output w1 = output w.
Proof.
  rewrite listAllFiles_unfold.
  destruct (Pages _ _ _ _ _ _) as [[files e] w'| |] eqn:Hpages; [|done..].
  intros Hafter. apply afterPages_ok in Hafter as (-> & n & ->).
  apply Pages_collect_inv in Hpages as (new & Hheap & -> & Hout & _).
  simpl. split; [|split; [|done]].
  - eapply sublist_NoDup; [apply NoDup_fresh | apply sublist_take].
  - apply Forall_forall. intros p Hp. apply subseteq_take in Hp.
    apply elem_of_seq in Hp. apply lookup_lt_is_Some.
    rewrite Hheap, length_app. lia.
Qed.

Section AbsPath.
Variable self : Drive.

Lemma absPathLoop_app l1 l2 : forall w,
  absPathLoop self (l1 ++ l2) w =
  match absPathLoop self l1 w with
  | Ret None w' => absPathLoop self l2 w'
  | o => o
  end.
Proof.
  induction l1 as [|p l1 IH]; intros w; [done|].
  simpl. unfold bind, deref, store.
  destruct (heap w !! p) as [f|]; [|done].
  destruct (absPath self f) as [name [msg|]]; simpl; [done|]. apply IH.
Qed.

(** Whatever the loop does, a file object differs from what it was in its
    name at most. *)
Lemma absPathLoop_only_Name files : forall w q f,
  heap w !! q = Some f ->
  exists name, heap (world_of (absPathLoop self files w)) !! q
               = Some (set_Name name f).
Proof.
  assert (Hsame : forall f, f = set_Name (Name f) f) by (by intros []).
  induction files as [|p files IH]; intros w q f Hq.
  { exists (Name f). simpl. by rewrite <- Hsame. }
  simpl. unfold bind, deref, store.
  destruct (heap w !! p) as [fp|] eqn:Hp.
  2: { exists (Name f). simpl. by rewrite <- Hsame. }
  destruct (absPath self fp) as [name err]. simpl.
  set (w1 := mkWorld (<[p:=set_Name name fp]> (heap w)) (requests w) (output w)).
  assert (Hq1 : exists name1, heap w1 !! q = Some (set_Name name1 f)).
  { unfold w1. simpl. destruct (decide (p = q)) as [<-|Hne].
    - rewrite list_lookup_insert_eq by (by eapply lookup_lt_Some).
      exists name. congruence.
    - rewrite list_lookup_insert_ne by done. exists (Name f).
      by rewrite <- Hsame. }
  destruct err as [msg|]; simpl; [done|].
  destruct Hq1 as [name1 Hq1].
  destruct (IH w1 q _ Hq1) as [name2 Hq2]. exists name2.
  by rewrite Hq2.
Qed.

(** When every file of the list resolves, each gets its resolved name, in
    place, and nothing else changes. *)
Lemma absPathLoop_resolves files : forall w,
  NoDup files -> Forall (resolves self (heap w)) files ->
  exists h2,
    absPathLoop self files w = Ret None (mkWorld h2 (requests w) (output w)) /\
    length h2 = length (heap w) /\
    forall q f, heap w !! q = Some f ->
      h2 !! q = Some (if decide (q ∈ files) then renamed self f else f).
Proof.
  induction files as [|p files IH]; intros w Hnd Hall.
  { exists (heap w). split; [by destruct w|]. split; [done|].
    intros q f Hq. by rewrite decide_False by apply not_elem_of_nil. }
  apply NoDup_cons in Hnd as [Hp Hnd].
  apply Forall_cons in Hall as [(fp & Hfp & Hres) Hall].
  simpl. unfold bind, deref, store. rewrite Hfp.
  destruct (absPath self fp) as [name err] eqn:Habs. simpl in Hres. subst err.
  simpl.
  set (w1 := mkWorld (<[p:=set_Name name fp]> (heap w)) (requests w) (output w)).
  destruct (IH w1 Hnd) as (h2 & Hloop & Hlen & Hh2).
  { apply Forall_forall. intros q Hq. rewrite Forall_forall in Hall.
    destruct (Hall q Hq) as (f & Hf & Hr). exists f. split; [|done].
    unfold w1. simpl. rewrite list_lookup_insert_ne; [done|].
    intros ->. done. }
  exists h2. split; [done|]. split.
  { rewrite Hlen. unfold w1. simpl. apply length_insert. }
  intros q f Hq. destruct (decide (q = p)) as [->|Hne].
  - rewrite decide_True by apply list_elem_of_here.
    rewrite (Hh2 p (set_Name name fp)).
    + rewrite decide_False by done. unfold renamed.
      replace f with fp by congruence. by rewrite Habs.
    + unfold w1. simpl. apply list_lookup_insert_eq. by eapply lookup_lt_Some.
  - rewrite (Hh2 q f).
    + destruct (decide (q ∈ files)) as [Hin|Hnin].
      * by rewrite decide_True by (by apply list_elem_of_further).
      * rewrite decide_False; [done|]. rewrite elem_of_cons. tauto.
    + unfold w1. simpl. by rewrite list_lookup_insert_ne.
Qed.

(** The files before the first that fails keep their resolved names; the one
    that fails is assigned the string returned with the error; the loop
    returns that error. *)
Lemma absPathLoop_fails pre p post w fp name msg :
  NoDup (pre ++ p :: post) ->
  Forall (resolves self (heap w)) pre ->
  heap w !! p = Some fp ->
  absPath self fp = (name, Some msg) ->
  exists h2,
    absPathLoop self (pre ++ p :: post) w
      = Ret (Some (External msg)) (mkWorld h2 (requests w) (output w)) /\
    (forall q f, q ∈ pre -> heap w !! q = Some f ->
       h2 !! q = Some (renamed self f)) /\
    h2 !! p = Some (set_Name name fp) /\
    (forall q, q ∉ pre -> q <> p -> h2 !! q = heap w !! q).
Proof.
  intros Hnd Hall Hp Habs.
  apply NoDup_app in Hnd as (Hnd & Hdisj & _).
  destruct (absPathLoop_resolves pre w Hnd Hall) as (h1 & Hloop & Hlen & Hh1).
  assert (Hpre : p ∉ pre).
  { intros Hin. apply (Hdisj _ Hin). apply list_elem_of_here. }
  assert (Hp1 : h1 !! p = Some fp).
  { rewrite (Hh1 p fp Hp). by rewrite decide_False. }
  exists (<[p := set_Name name fp]> h1). split; [|split; [|split]].
  - rewrite absPathLoop_app, Hloop. simpl. unfold bind, deref, store. simpl.
    by rewrite Hp1, Habs.
  - intros q f Hq Hf. rewrite list_lookup_insert_ne by (by intros ->).
    rewrite (Hh1 q f Hf). by rewrite decide_True.
  - apply list_lookup_insert_eq. by eapply lookup_lt_Some.
  - intros q Hq Hne. rewrite list_lookup_insert_ne by done.
    destruct (heap w !! q) as [f|] eqn:Hf.
    + rewrite (Hh1 q f Hf). by rewrite decide_False.
    + apply lookup_ge_None. rewrite Hlen. by apply lookup_ge_None.
Qed.

(** The first pointer whose file does not resolve. *)
Lemma first_unresolved h ptrs :
  Forall (fun p => is_Some (h !! p)) ptrs ->
  (exists p f, p ∈ ptrs /\ h !! p = Some f /\ snd (absPath self f) <> None) ->
  exists pre p post fp msg,
    ptrs = pre ++ p :: post /\ Forall (resolves self h) pre /\
    h !! p = Some fp /\ snd (absPath self fp) = Some msg.
Proof.
  induction 1 as [|q ptrs [fq Hq] _ IH]; intros (p & f & Hin & Hf & Hne).
  { by apply elem_of_nil in Hin. }
  destruct (snd (absPath self fq)) as [msg|] eqn:Hres.
  { exists [], q, ptrs, fq, msg. auto. }
  destruct IH as (pre & p' & post & fp & msg & -> & Hpre & Hp' & Hmsg).
  { exists p, f. apply elem_of_cons in Hin as [->|Hin]; [congruence|done]. }
  exists (q :: pre), p', post, fp, msg. split; [done|]. split; [|done].
  constructor; [|done]. by exists fq.
Qed.

End AbsPath.

Section ListAbsPath.
Context `{Util}.

Lemma render_heap (csv : bool) pargs w :
  heap (world_of ((if csv then PrintFileList pargs
                   else PrintTabbedFileList pargs) w)) = heap w.
Proof.
  destruct (deref_all (heap w) (PrintFileListArgs.Files pargs)) as [fs|] eqn:Hfs;
    destruct csv.
  - by rewrite (PrintFileList_ok _ _ fs).
  - by rewrite (PrintTabbedFileList_ok _ _ fs).
  - by rewrite PrintFileList_panic.
  - by rewrite PrintTabbedFileList_panic.
Qed.

(** [List] in absolute-path mode, after a listing that returned [ptrs]. *)
Lemma List_absPath_unfold fuel self args w ptrs w1 :
  ListFilesArgs.AbsPath args = true ->
  listAllFiles fuel self (listArgsOf args) w = Ret (ptrs, None) w1 ->
  List fuel self args w =
  match absPathLoop self ptrs w1 with
  | Ret (Some e) w2 => Ret (Some e) w2
  | Ret None w2 =>
      match (if ListFilesArgs.UseCsv args
             then PrintFileList (printArgsOf args ptrs)
             else PrintTabbedFileList (printArgsOf args ptrs)) w2 with
      | Ret _ w3 => Ret None w3
      | Panic w3 => Panic w3
      | OutOfFuel w3 => OutOfFuel w3
      end
  | Panic w2 => Panic w2
  | OutOfFuel w2 => OutOfFuel w2
  end.
Proof. intros Habs Hlist. by rewrite List_unfold, Hlist, Habs. Qed.

(** The first failure of [absPath] ends [List] with that error: nothing is
    written, the files before it are renamed, the others are as fetched. *)
Lemma List_absPath_fails fuel self args w ptrs w1 pre p post fp name msg :
  ListFilesArgs.AbsPath args = true ->
  listAllFiles fuel self (listArgsOf args) w = Ret (ptrs, None) w1 ->
  ptrs = pre ++ p :: post ->
  Forall (resolves self (heap w1)) pre ->
  heap w1 !! p = Some fp ->
  absPath self fp = (name, Some msg) ->
  exists w2,
    List fuel self args w = Ret (Some (External msg)) w2 /\
    output w2 = output w /\
    (forall q f, q ∈ pre -> heap w1 !! q = Some f ->
       heap w2 !! q = Some (renamed self f)) /\
    heap w2 !! p = Some (set_Name name fp) /\
    (forall q, q ∉ pre -> q <> p -> heap w2 !! q = heap w1 !! q).
Proof.
  intros Habs Hlist -> Hpre Hp Hfail.
  destruct (listAllFiles_ptrs _ _ _ _ _ _ Hlist) as (Hnd & _ & Hout).
  destruct (absPathLoop_fails self pre p post w1 fp name msg Hnd Hpre Hp Hfail)
    as (h2 & Hloop & Hh2).
  eexists. rewrite (List_absPath_unfold _ _ _ _ _ _ Habs Hlist), Hloop.
  split; [reflexivity|]. simpl. split; [done|]. exact Hh2.
Qed.

(** C5. In absolute-path mode, after a listing that returned [ptrs], if
    [absPath] fails for the file of some pointer of [ptrs], then [List]
    returns the error of the first pointer for which it fails, and the output
    is what it was before the call: no header and no row was written to any
    writer. *)
Theorem List_absPath_failure_writes_nothing fuel self args w ptrs w1 :
  ListFilesArgs.AbsPath args = true ->
  listAllFiles fuel self (listArgsOf args) w = Ret (ptrs, None) w1 ->
  (exists p f, p ∈ ptrs /\ heap w1 !! p = Some f /\
               snd (absPath self f) <> None) ->
  exists pre p post fp msg w2,
    ptrs = pre ++ p :: post /\
    Forall (resolves self (heap w1)) pre /\
    heap w1 !! p = Some fp /\
    snd (absPath self fp) = Some msg /\
    List fuel self args w = Ret (Some (External msg)) w2 /\
    output w2 = output w.
Proof.
  intros Habs Hlist Hsome.
  destruct (listAllFiles_ptrs _ _ _ _ _ _ Hlist) as (_ & Hvalid & _).
  destruct (first_unresolved self (heap w1) ptrs Hvalid Hsome)
    as (pre & p & post & fp & msg & Hsplit & Hpre & Hp & Hmsg).
  destruct (absPath self fp) as [name err] eqn:Hfail. simpl in Hmsg. subst err.
  destruct (List_absPath_fails fuel self args w ptrs w1 pre p post fp name msg)
    as (w2 & Hret & Hout & _); try done.
  exists pre, p, post, fp, msg, w2. rewrite Hfail. auto 10.
Qed.

(** C10. In absolute-path mode, after a listing that returned [ptrs]:
    whatever [List] then does, every file object of the heap is afterwards
    what it was except for its name; if [absPath] fails on the pointer [p]
    after resolving the pointers [pre] before it, [List] returns that error
    and leaves each file of [pre] with the path that [absPath] returned for
    it as its name, the file of [p] with the string returned beside the
    error as its name, and every other file as it was; if every pointer
    resolves, [List] returns nil and every listed file carries its resolved
    path as its name. *)
Theorem List_absPath_renames_in_place fuel self args w ptrs w1 :
  ListFilesArgs.AbsPath args = true ->
  listAllFiles fuel self (listArgsOf args) w = Ret (ptrs, None) w1 ->
  (forall q f, heap w1 !! q = Some f ->
     exists name,
       heap (world_of (List fuel self args w)) !! q
       = Some (mkFile (Id f) name (Md5Checksum f) (MimeType f) (Size f)
                      (CreatedTime f) (Parents f) (HeadRevisionId f))) /\
  (forall pre p post fp name msg,
     ptrs = pre ++ p :: post ->
     Forall (resolves self (heap w1)) pre ->
     heap w1 !! p = Some fp ->
     absPath self fp = (name, Some msg) ->
     exists w2,
       List fuel self args w = Ret (Some (External msg)) w2 /\
       (forall q f, q ∈ pre -> heap w1 !! q = Some f ->
          heap w2 !! q
          = Some (mkFile (Id f) (fst (absPath self f)) (Md5Checksum f)
                         (MimeType f) (Size f) (CreatedTime f) (Parents f)
                         (HeadRevisionId f))) /\
       heap w2 !! p
       = Some (mkFile (Id fp) name (Md5Checksum fp) (MimeType fp) (Size fp)
                      (CreatedTime fp) (Parents fp) (HeadRevisionId fp)) /\
       (forall q, q ∉ pre -> q <> p -> heap w2 !! q = heap w1 !! q)) /\
  (Forall (resolves self (heap w1)) ptrs ->
   exists w3,
     List fuel self args w = Ret None w3 /\
     forall q f, heap w1 !! q = Some f ->
       heap w3 !! q
       = Some (if decide (q ∈ ptrs)
               then mkFile (Id f) (fst (absPath self f)) (Md5Checksum f)
                           (MimeType f) (Size f) (CreatedTime f) (Parents f)
                           (HeadRevisionId f)
               else f)).
Proof.
  intros Habs Hlist.
  pose proof (List_absPath_unfold _ _ _ _ _ _ Habs Hlist) as HList.
  destruct (listAllFiles_ptrs _ _ _ _ _ _ Hlist) as (Hnd & Hvalid & Hout).
  split; [|split].
  - intros q f Hq.
    destruct (absPathLoop_only_Name self ptrs w1 q f Hq) as [name Hname].
    exists name. rewrite HList.
    destruct (absPathLoop self ptrs w1) as [[e|] w2| |]; try done.
    simpl in Hname.
    change (mkFile (Id f) name (Md5Checksum f) (MimeType f) (Size f)
                   (CreatedTime f) (Parents f) (HeadRevisionId f))
      with (set_Name name f).
    rewrite <- Hname, <- (render_heap
      (ListFilesArgs.UseCsv args) (printArgsOf args ptrs) w2).
    by destruct (ListFilesArgs.UseCsv args);
      [destruct (PrintFileList _ w2) | destruct (PrintTabbedFileList _ w2)].
  - intros pre p post fp name msg Hsplit Hpre Hp Hfail.
    destruct (List_absPath_fails fuel self args w ptrs w1 pre p post fp name msg)
      as (w2 & Hret & _ & Hh2); try done.
    by exists w2.
  - intros Hall.
    destruct (absPathLoop_resolves self ptrs w1 Hnd Hall)
      as (h2 & Hloop & Hlen & Hh2).
    rewrite HList, Hloop.
    set (w2 := mkWorld h2 (requests w1) (output w1)).
    assert (Hfs : is_Some (deref_all (heap w2) ptrs)).
    { apply mapM_is_Some. eapply Forall_impl; [exact Hvalid|].
      intros p Hp. simpl. apply lookup_lt_is_Some. rewrite Hlen.
      by apply lookup_lt_is_Some. }
    destruct Hfs as [fs Hfs].
    destruct (ListFilesArgs.UseCsv args).
    + rewrite (PrintFileList_ok _ _ fs) by done. eexists. split; [done|].
      exact Hh2.
    + rewrite (PrintTabbedFileList_ok _ _ fs) by done. eexists. split; [done|].
      exact Hh2.
Qed.

End ListAbsPath.

Lemma sample_first_four_resolve :
  Forall (resolves sample_drive (heap fetched_world)) [0; 1; 2; 3]%nat.
Proof.
  repeat constructor.
  - by exists file_a.
  - by exists file_b.
  - by exists file_c.
  - by exists file_d.
Qed.

(** The fifth file of the sample drive has lost its parent. *)
Lemma List_absPath_failure_writes_nothing_witness :
  exists pre p post fp msg w2,
    [0; 1; 2; 3; 4]%nat = pre ++ p :: post /\
    Forall (resolves sample_drive (heap fetched_world)) pre /\
    heap fetched_world !! p = Some fp /\
    snd (absPath sample_drive fp) = Some msg /\
    @List sample_util 4 sample_drive (sample_args 0 true true false) empty_world
      = Ret (Some (External msg)) w2 /\
    output w2 = output empty_world.
Proof.
  apply (@List_absPath_failure_writes_nothing sample_util 4%nat sample_drive
           (sample_args 0 true true false) empty_world
           [0; 1; 2; 3; 4]%nat fetched_world).
  - reflexivity.
  - vm_compute. reflexivity.
  - exists 4%nat, file_e. split; [|split; [reflexivity|discriminate]].
    apply list_elem_of_In. simpl. auto 10.
Defined.

Lemma List_absPath_renames_in_place_witness :
  exists w2,
    @List sample_util 4 sample_drive (sample_args 0 true false false)
          empty_world
      = Ret (Some (External "Failed to get parent")) w2 /\
    (forall q f, q ∈ [0; 1; 2; 3]%nat -> heap fetched_world !! q = Some f ->
       heap w2 !! q
       = Some (mkFile (Id f) (fst (absPath sample_drive f)) (Md5Checksum f)
                      (MimeType f) (Size f) (CreatedTime f) (Parents f)
                      (HeadRevisionId f))) /\
    heap w2 !! 4%nat
    = Some (mkFile (Id file_e) "" (Md5Checksum file_e) (MimeType file_e)
                   (Size file_e) (CreatedTime file_e) (Parents file_e)
                   (HeadRevisionId file_e)) /\
    (forall q, q ∉ [0; 1; 2; 3]%nat -> q <> 4%nat ->
       heap w2 !! q = heap fetched_world !! q).
Proof.
  apply (proj1 (proj2
           (@List_absPath_renames_in_place sample_util 4%nat sample_drive
              (sample_args 0 true false false) empty_world
              [0; 1; 2; 3; 4]%nat fetched_world eq_refl
              ltac:(vm_compute; reflexivity)))
           [0; 1; 2; 3]%nat 4%nat [] file_e "" "Failed to get parent").
  - reflexivity.
  - apply sample_first_four_resolve.
  - reflexivity.
  - reflexivity.
Defined.

Example List_absPath_failure_heap :
  @List sample_util 4 sample_drive (sample_args 0 true false false) empty_world
  = Ret (Some (External "Failed to get parent"))
        (mkWorld [ set_Name "/a.txt" file_a; set_Name "/photos" file_b;
                   set_Name "/c.bin" file_c; set_Name "/notes" file_d;
                   set_Name "" file_e ]
                 (requests fetched_world) []).
Proof. vm_compute. reflexivity. Qed.

Example List_absPath_success :
  @List sample_util 4 sample_drive (sample_args 3 true false false) empty_world
  = Ret None
        (mkWorld [ set_Name "/a.txt" file_a; set_Name "/photos" file_b;
                   set_Name "/c.bin" file_c; file_d ]
                 [ mkCall "trashed = false" listFields "" 3 "";
                   mkCall "trashed = false" listFields "" 3 "t1" ]
                 [ (Sink 1, TabLine (tabbed_line ["Id"; "Name"; "Type"; "Size"; "Created"]));
                   (Sink 1, TabLine (tabbed_line ["id-a"; "/a.txt"; "bin"; "some"; "2020-01-01"]));
                   (Sink 1, TabLine (tabbed_line ["id-b"; "/photos"; "dir"; ""; "2020-01-02"]));
                   (Sink 1, TabLine (tabbed_line ["id-c"; "/c.bin"; "bin"; "some"; "2020-01-03"])) ]).
Proof. vm_compute. reflexivity. Qed.

(** ** The requests of a run *)

(** The requests of [Pages] differ from the first in their page token only;
    the first is the call itself, and each later one carries the next-page
    token of the page that answered the one before it. *)
Lemma Pages_requests_chain {St} self (f : FileList -> St -> St * option error)
    fuel :
  forall c s w,
  exists calls,
    requests (world_of (Pages fuel self c f s w)) = requests w ++ calls /\
    Forall (same_query c) calls /\
    (fuel <> 0%nat -> head calls = Some c) /\
    (forall i c1 c2, calls !! i = Some c1 -> calls !! S i = Some c2 ->
       exists p, service_Files_List self c1 = inr p /\
                 page_next p <> "" /\ PageToken c2 = page_next p).
Proof.
  induction fuel as [|fuel IH]; intros c s w.
  { exists []. simpl. rewrite app_nil_r. repeat split; [constructor|done|].
    intros i c1 c2 Hc1. by rewrite lookup_nil in Hc1. }
  assert (Hone : forall w',
    requests w' = requests w ++ [c] ->
    exists calls,
      requests w' = requests w ++ calls /\
      Forall (same_query c) calls /\
      (S fuel <> 0%nat -> head calls = Some c) /\
      (forall i c1 c2, calls !! i = Some c1 -> calls !! S i = Some c2 ->
         exists p, service_Files_List self c1 = inr p /\
                   page_next p <> "" /\ PageToken c2 = page_next p)).
  { intros w' Hw'. exists [c]. split; [done|]. split.
    - by repeat constructor.
    - split; [done|]. intros i c1 c2 _ Hc2. by destruct i. }
  rewrite Pages_step. cbv zeta.
  destruct (service_Files_List self c) as [msg|p] eqn:Hc; [by apply Hone|].
  destruct (f _ s) as [s' [e|]]; [by apply Hone|].
  destruct (String.eqb_spec (page_next p) "") as [Heq|Hne]; [by apply Hone|].
  destruct (IH (with_PageToken c (page_next p)) s'
               (mkWorld (heap w ++ page_files p) (requests w ++ [c]) (output w)))
    as (calls & Hreq & Hall & Hhead & Hchain).
  exists (c :: calls). rewrite Hreq. simpl. rewrite <- app_assoc.
  split; [done|]. split; [|split; [done|]].
  - constructor; [by repeat split|].
    eapply Forall_impl; [exact Hall|]. intros c' (? & ? & ? & ?).
    repeat split; simpl in *; congruence.
  - intros [|i] c1 c2 Hc1 Hc2; simpl in Hc1, Hc2.
    + injection Hc1 as <-. exists p. split; [done|]. split; [done|].
      destruct fuel as [|fuel'].
      * assert (calls = []) as ->; [|done].
        simpl in Hreq. apply (f_equal length) in Hreq.
        rewrite !length_app in Hreq. destruct calls; [done|simpl in Hreq; lia].
      * specialize (Hhead ltac:(done)). destruct calls as [|c' calls]; [done|].
        simpl in Hhead, Hc2. injection Hhead as ->. by injection Hc2 as <-.
    + by apply (Hchain i).
Qed.

Lemma absPathLoop_requests self files :
  forall w, requests (world_of (absPathLoop self files w)) = requests w.
Proof.
  induction files as [|p files IH]; intros w; [done|].
  simpl. unfold bind, deref, store.
  destruct (heap w !! p) as [f|]; [|done].
  destruct (absPath self f) as [name [msg|]]; simpl; [done|].
  by rewrite IH.
Qed.

Section ListRequests.
Context `{Util}.

Lemma render_requests (csv : bool) pargs w :
  requests (world_of ((if csv then PrintFileList pargs
                       else PrintTabbedFileList pargs) w)) = requests w.
Proof.
  destruct (deref_all (heap w) (PrintFileListArgs.Files pargs)) as [fs|] eqn:Hfs;
    destruct csv.
  - by rewrite (PrintFileList_ok _ _ fs).
  - by rewrite (PrintTabbedFileList_ok _ _ fs).
  - by rewrite PrintFileList_panic.
  - by rewrite PrintTabbedFileList_panic.
Qed.

(** Only the listing talks to the remote service. *)
Lemma List_requests fuel self args w :
  requests (world_of (List fuel self args w))
  = requests (world_of (listAllFiles fuel self (listArgsOf args) w)).
Proof.
  rewrite List_unfold.
  destruct (listAllFiles _ _ _ _) as [[ptrs [e|]] w1| |]; try done.
  simpl. destruct (ListFilesArgs.AbsPath args).
  - pose proof (absPathLoop_requests self ptrs w1) as Hloop.
    destruct (absPathLoop self ptrs w1) as [[e|] w2| |]; try done.
    simpl in Hloop. rewrite <- Hloop.
    rewrite <- (render_requests (ListFilesArgs.UseCsv args)
                  (printArgsOf args ptrs) w2).
    by destruct (ListFilesArgs.UseCsv args);
      [destruct (PrintFileList _ w2) | destruct (PrintTabbedFileList _ w2)].
  - unfold ret.
    rewrite <- (render_requests (ListFilesArgs.UseCsv args)
                  (printArgsOf args ptrs) w1).
    by destruct (ListFilesArgs.UseCsv args);
      [destruct (PrintFileList _ w1) | destruct (PrintTabbedFileList _ w1)].
Qed.

(** X1. The requests of a run of [List], however it ends: each carries the
    caller's query and sort order, the field list of list.go:30 and one page
    size; the first has an empty page token and each later one the
    next-page token of the page that answered the request before it. *)
Theorem List_requests_carry_arguments fuel self args w :
  exists calls,
    requests (world_of (List fuel self args w)) = requests w ++ calls /\
    Forall (fun c => Q c = ListFilesArgs.Query args /\
                     Fields c = listFields /\
                     OrderBy c = ListFilesArgs.SortOrder args /\
                     PageSize c = pageSizeOf (ListFilesArgs.MaxFiles args))
           calls /\
    (fuel <> 0%nat -> exists c, head calls = Some c /\ PageToken c = "") /\
    (forall i c1 c2, calls !! i = Some c1 -> calls !! S i = Some c2 ->
       exists p, service_Files_List self c1 = inr p /\
                 page_next p <> "" /\ PageToken c2 = page_next p).
Proof.
  rewrite List_requests, listAllFiles_world.
  destruct (Pages_requests_chain self
              (collect (maxFiles (listArgsOf args))) fuel
              (listCall (listArgsOf args)) [] w)
    as (calls & Hreq & Hall & Hhead & Hchain).
  exists calls. split; [done|]. split; [|split; [|done]].
  - eapply Forall_impl; [exact Hall|]. by intros c (? & ? & ? & ?).
  - intros Hfuel. eexists. split; [by apply Hhead|done].
Qed.

End ListRequests.

(** ** Where pagination stops *)

Lemma enough_len N (acc : list nat) w n :
  in_int64 N -> 0 < N ->
  enough N (acc ++ fresh w n) = true <-> N <= len acc + Z.of_nat n.
Proof.
  intros Hrange Hpos. rewrite enough_true by done.
  unfold len. rewrite length_app, length_fresh. lia.
Qed.

Lemma enough_len_false N (acc : list nat) w n :
  in_int64 N -> 0 < N ->
  enough N (acc ++ fresh w n) = false <-> len acc + Z.of_nat n < N.
Proof.
  intros Hrange Hpos. rewrite <- not_true_iff_false, enough_len by done. lia.
Qed.

Lemma take_1_records p ps : records (take 1 (p :: ps)) = page_files p.
Proof. unfold records. simpl. by rewrite app_nil_r. Qed.

(** With a positive maximum [Pages] asks for a page only while the files
    accumulated are fewer than the maximum, and when it leaves pages
    unasked the files accumulated have reached it. *)
Lemma Pages_collect_calls self N c ps o :
  in_int64 N -> 0 < N ->
  remote_run (service_Files_List self) c ps o ->
  forall fuel acc w, (length ps < fuel)%nat ->
  exists calls,
    requests (world_of (Pages fuel self c (collect N) acc w))
      = requests w ++ calls /\
    (length calls <=
       length ps + match o with Exhausted => 0 | Failed _ => 1 end)%nat /\
    (forall j, (0 < j < length calls)%nat ->
       len acc + len (records (take j ps)) < N) /\
    ((length calls < length ps)%nat ->
       N <= len acc + len (records (take (length calls) ps))).
Proof.
  intros Hrange Hpos.
  induction 1 as [c msg Hc | c p Hc Hnext | c p ps o Hc Hnext Hrun IH];
    intros [|fuel] acc w Hfuel; simpl in Hfuel; try lia;
    rewrite Pages_step, Hc; cbv zeta.
  - exists [c]. simpl. repeat split; [lia | intros; lia | lia].
  - rewrite collect_eq. simpl Files.
    exists [c].
    destruct (enough N _); [|rewrite Hnext]; simpl;
      (repeat split; [lia | intros; lia | lia]).
  - rewrite collect_eq. simpl Files. fold (fresh w (length (page_files p))).
    destruct (enough N _) eqn:He.
    + exists [c]. split; [done|]. split; [simpl; lia|].
      split; [intros j Hj; simpl in Hj; lia|].
      intros _. change (length [c]) with 1%nat.
      rewrite take_1_records. apply enough_len in He; [|done..].
      unfold len in *. lia.
    + destruct (String.eqb_spec (page_next p) "") as [Heq|_]; [done|].
      apply enough_len_false in He; [|done..].
      destruct (IH fuel (acc ++ fresh w (length (page_files p)))
                  (mkWorld (heap w ++ page_files p) (requests w ++ [c])
                           (output w)))
        as (calls & Hreq & Hlen & Hbelow & Hreach); [lia|].
      assert (Hacc : len (acc ++ fresh w (length (page_files p)))
                     = len acc + len (page_files p)).
      { unfold len. rewrite length_app, length_fresh. lia. }
      rewrite Hacc in Hbelow, Hreach.
      assert (Hrec : forall j, len (records (take (S j) (p :: ps)))
                               = len (page_files p) + len (records (take j ps))).
      { intros j. simpl take. rewrite records_cons. unfold len.
        rewrite length_app. lia. }
      simpl in Hreq. rewrite <- app_assoc in Hreq.
      exists (c :: calls). split; [exact Hreq|]. split; [simpl; lia|]. split.
      * intros [|[|j]] Hj; simpl in Hj; [lia| |].
        -- rewrite take_1_records. unfold len in *. lia.
        -- rewrite Hrec. specialize (Hbelow (S j) ltac:(lia)). lia.
      * intros Hlt. simpl in Hlt. change (length (c :: calls)) with (S (length calls)).
        rewrite Hrec. specialize (Hreach ltac:(lia)). lia.
Qed.

(** X2. With a maximum [N > 0], against a service that holds the pages [ps],
    [listAllFiles] sends a request only while the pages fetched so far hold
    fewer than [N] records: before every request but the first, the pages
    already fetched held fewer than [N]; and when it leaves pages unasked,
    those fetched hold at least [N]. *)
Theorem listAllFiles_stops_when_enough self args ps fuel w :
  in_int64 (maxFiles args) ->
  0 < maxFiles args ->
  remote_run (service_Files_List self) (listCall args) ps Exhausted ->
  (length ps < fuel)%nat ->
  exists calls,
    requests (world_of (listAllFiles fuel self args w)) = requests w ++ calls /\
    (1 <= length calls <= length ps)%nat /\
    (forall j, (0 < j < length calls)%nat ->
       len (records (take j ps)) < maxFiles args) /\
    ((length calls < length ps)%nat ->
       maxFiles args <= len (records (take (length calls) ps))).
Proof.
  intros Hrange Hpos Hrun Hfuel. rewrite listAllFiles_world.
  destruct (Pages_collect_calls self (maxFiles args) _ _ _ Hrange Hpos Hrun
              fuel [] w Hfuel) as (calls & Hreq & Hlen & Hbelow & Hreach).
  destruct (Pages_requests self (collect (maxFiles args)) fuel
              (listCall args) [] w) as (calls' & Hreq' & _ & Hne).
  rewrite Hreq in Hreq'. apply app_inv_head in Hreq'. subst calls'.
  exists calls. split; [done|]. split.
  - destruct calls as [|c calls]; [exfalso; apply Hne; [lia|done]|].
    simpl in *. lia.
  - split; [exact Hbelow | exact Hreach].
Qed.

(** Five records in pages of two, two and one: with [N = 3] the second
    request is the last. *)
Lemma listAllFiles_stops_when_enough_witness :
  exists calls,
    requests (world_of (listAllFiles 4 sample_drive
                          (mkListAllFilesArgs "" listFields "" 3) empty_world))
      = requests empty_world ++ calls /\
    (1 <= length calls <= length three_pages_list)%nat /\
    (forall j, (0 < j < length calls)%nat ->
       len (records (take j three_pages_list)) < 3) /\
    ((length calls < length three_pages_list)%nat ->
       3 <= len (records (take (length calls) three_pages_list))).
Proof.
  apply (listAllFiles_stops_when_enough sample_drive
           (mkListAllFilesArgs "" listFields "" 3) three_pages_list 4%nat
           empty_world).
  - unfold in_int64. simpl. lia.
  - simpl. lia.
  - apply three_pages_run.
  - simpl. lia.
Defined.

(** ** What a run leaves untouched *)

Lemma Pages_heap {St} self (f : FileList -> St -> St * option error) fuel :
  forall c s w,
  exists new, heap (world_of (Pages fuel self c f s w)) = heap w ++ new.
Proof.
  induction fuel as [|fuel IH]; intros c s w.
  { exists []. simpl. by rewrite app_nil_r. }
  rewrite Pages_step. cbv zeta.
  destruct (service_Files_List self c) as [msg|p].
  { exists []. simpl. by rewrite app_nil_r. }
  destruct (f _ s) as [s' [e|]]; [by exists (page_files p)|].
  destruct (String.eqb _ _); [by exists (page_files p)|].
  destruct (IH (with_PageToken c (page_next p)) s'
               (mkWorld (heap w ++ page_files p) (requests w ++ [c]) (output w)))
    as (new & Hnew).
  exists (page_files p ++ new). rewrite Hnew. simpl. by rewrite app_assoc.
Qed.

(** [listAllFiles] allocates and does nothing else to the heap; the pointers
    it returns are distinct and are among those it allocated. *)
Lemma listAllFiles_allocates fuel self args w :
  exists new,
    heap (world_of (listAllFiles fuel self args w)) = heap w ++ new /\
    forall ptrs e,
      returned (listAllFiles fuel self args w) = Some (ptrs, e) ->
      NoDup ptrs /\
      Forall (fun p => (length (heap w) <= p < length (heap w) + length new)%nat)
             ptrs.
Proof.
  destruct (Pages_heap self (collect (maxFiles args)) fuel (listCall args) [] w)
    as (new & Hnew).
  exists new. rewrite listAllFiles_world. split; [done|].
  intros ptrs e. rewrite listAllFiles_unfold.
  destruct (Pages _ _ _ _ _ _) as [[files e'] w'| |] eqn:Hpages; [|done..].
  destruct (afterPages _ _ w') as [[ptrs' e''] w''| |] eqn:Hafter; [|done..].
  simpl. intros [= -> ->].
  destruct e as [e|].
  { apply afterPages_error in Hafter as (_ & _ & -> & _).
    split; [constructor|constructor]. }
  apply afterPages_ok in Hafter as (-> & n & ->).
  apply Pages_collect_inv in Hpages as (new' & Hheap & -> & _ & _).
  simpl in Hnew. rewrite Hheap in Hnew. apply app_inv_head in Hnew as ->.
  simpl. split.
  - eapply sublist_NoDup; [apply NoDup_fresh | apply sublist_take].
  - apply Forall_forall. intros p Hp. apply subseteq_take in Hp.
    by apply elem_of_seq in Hp.
Qed.

Lemma absPathLoop_frame self files :
  forall w q, q ∉ files ->
  heap (world_of (absPathLoop self files w)) !! q = heap w !! q.
Proof.
  induction files as [|p files IH]; intros w q Hq; [done|].
  apply not_elem_of_cons in Hq as [Hne Hq].
  simpl. unfold bind, deref, store.
  destruct (heap w !! p) as [f|]; [|done].
  destruct (absPath self f) as [name [msg|]]; simpl.
  - by rewrite list_lookup_insert_ne.
  - rewrite IH by done. simpl. by rewrite list_lookup_insert_ne.
Qed.

(** X3. Whatever [List] does, in either mode, a file object that existed
    before the call is afterwards what it was: absolute-path mode renames
    only objects that this call fetched. *)
Theorem List_keeps_earlier_files `{Util} fuel self args w q f :
  heap w !! q = Some f ->
  heap (world_of (List fuel self args w)) !! q = Some f.
Proof.
  intros Hq.
  destruct (listAllFiles_allocates fuel self (listArgsOf args) w)
    as (new & Hheap & Hptrs).
  assert (Hkeep : (heap w ++ new) !! q = Some f) by (by apply lookup_app_l_Some).
  rewrite List_unfold.
  destruct (listAllFiles _ _ _ _) as [[ptrs e] w1| |]; simpl in Hheap;
    [|simpl; by rewrite Hheap..].
  destruct (Hptrs ptrs e eq_refl) as (_ & Hfresh).
  destruct e as [e|]; [simpl; by rewrite Hheap|].
  assert (Hnot : q ∉ ptrs).
  { intros Hin. rewrite Forall_forall in Hfresh. specialize (Hfresh q Hin).
    apply lookup_lt_Some in Hq. lia. }
  set (o := (if ListFilesArgs.AbsPath args then absPathLoop self ptrs
             else ret None) w1).
  assert (Hloop : heap (world_of o) !! q = Some f).
  { subst o. destruct (ListFilesArgs.AbsPath args).
    - rewrite absPathLoop_frame by done. by rewrite Hheap.
    - simpl. by rewrite Hheap. }
  clearbody o. destruct o as [[e|] w2| |]; try done.
  simpl in Hloop.
  rewrite <- Hloop, <- (render_heap (ListFilesArgs.UseCsv args)
                          (printArgsOf args ptrs) w2).
  by destruct (ListFilesArgs.UseCsv args);
    [destruct (PrintFileList _ w2) | destruct (PrintTabbedFileList _ w2)].
Qed.

(** A world in which one file exists already; the run fetches five more,
    renames four of them and fails on the fifth. *)
Lemma List_keeps_earlier_files_witness :
  heap (world_of (@List sample_util 4 sample_drive
                        (sample_args 0 true true false)
                        (mkWorld [file_d] [] []))) !! 0%nat
  = Some file_d.
Proof.
  apply (@List_keeps_earlier_files sample_util 4%nat sample_drive
           (sample_args 0 true true false) (mkWorld [file_d] [] []) 0%nat
           file_d eq_refl).
Defined.

(** ** From the service to the rows *)

(** Against a service that holds the pages [ps], [listAllFiles] returns
    pointers to the records [listed]. *)
Lemma listAllFiles_listing self args ps fuel w :
  in_int64 (maxFiles args) ->
  remote_run (service_Files_List self) (listCall args) ps Exhausted ->
  (length ps < fuel)%nat ->
  exists ptrs w1,
    listAllFiles fuel self args w = Ret (ptrs, None) w1 /\
    deref_all (heap w1) ptrs = Some (listed (maxFiles args) (records ps)).
Proof.
  intros Hrange Hrun Hfuel. unfold listed.
  destruct (Z.ltb_spec 0 (maxFiles args)) as [Hpos|Hnonpos].
  - destruct (Pages_collect self (maxFiles args) _ _ _ Hrun fuel [] w Hfuel)
      as (got & rest & calls & e & Hps & Hpages & Hcases).
    simpl in Hpages, Hcases.
    exists (take (Z.to_nat (maxFiles args)) (fresh w (length (records got)))).
    eexists. split.
    + rewrite listAllFiles_unfold, Hpages. unfold afterPages.
      destruct (Z.ltb_spec 0 (maxFiles args)) as [_|]; [|lia].
      rewrite (int_in_range _ Hrange).
      destruct Hcases as [(-> & _) | (_ & -> & _)]; unfold bind;
        rewrite slice_to_min by lia; reflexivity.
    + simpl. rewrite deref_all_fresh. f_equal.
      destruct Hcases as [(_ & He & _) | (-> & _ & _)].
      * apply enough_true in He as [_ He]; [|done].
        unfold len in He. rewrite length_fresh in He.
        rewrite Hps, records_app, take_app_le; [done|lia].
      * by rewrite Hps, app_nil_r.
  - destruct (listAllFiles_nonpos self args ps Exhausted fuel w)
      as (calls & Hret & _); [done..|].
    eexists _, _. split; [exact Hret|]. simpl.
    pose proof (deref_all_fresh w (records ps) (length (records ps))) as Hd.
    rewrite !take_ge in Hd; [done | lia | rewrite length_fresh; lia].
Qed.

Lemma Forall2_lookup_renamed (h h2 : list File) (g : File -> File) ptrs fs :
  Forall2 (fun p f => h !! p = Some f) ptrs fs ->
  (forall p f, p ∈ ptrs -> h !! p = Some f -> h2 !! p = Some (g f)) ->
  Forall2 (fun p f => h2 !! p = Some f) ptrs (map g fs).
Proof.
  induction 1 as [|p f ptrs fs Hp _ IH]; intros Hh2; simpl; constructor.
  - apply Hh2; [apply list_elem_of_here|done].
  - apply IH. intros q fq Hq. apply Hh2. by apply list_elem_of_further.
Qed.

Lemma Forall2_resolves self (h : list File) ptrs fs :
  Forall2 (fun p f => h !! p = Some f) ptrs fs ->
  Forall (fun f => snd (absPath self f) = None) fs ->
  Forall (resolves self h) ptrs.
Proof.
  induction 1 as [|p f ptrs fs Hp _ IH]; intros Hres; [constructor|].
  apply Forall_cons in Hres as [Hf Hres].
  constructor; [by exists f|by apply IH].
Qed.

Section ListRenders.
Context `{Util}.

Lemma length_rendering args fs :
  length (rendering args fs)
  = ((if ListFilesArgs.SkipHeader args then 0 else 1) + length fs)%nat.
Proof.
  unfold rendering, csv_rows, tabbed_rows.
  destruct (ListFilesArgs.UseCsv args);
    rewrite length_map, length_app, length_map; simpl;
    by destruct (ListFilesArgs.SkipHeader args).
Qed.

(** After a listing that returned pointers to the files [fs], [List]
    returns nil having written one rendering: of [fs] as they are, or, in
    absolute-path mode when every path resolves, of [fs] renamed. *)
Lemma List_renders fuel self args w ptrs w1 fs :
  listAllFiles fuel self (listArgsOf args) w = Ret (ptrs, None) w1 ->
  deref_all (heap w1) ptrs = Some fs ->
  (ListFilesArgs.AbsPath args = true ->
   Forall (fun f => snd (absPath self f) = None) fs) ->
  exists w3,
    List fuel self args w = Ret None w3 /\
    output w3
    = output w ++ rendering args (if ListFilesArgs.AbsPath args
                                  then map (renamed self) fs else fs).
Proof.
  intros Hlist Hfs Hres.
  destruct (listAllFiles_ptrs _ _ _ _ _ _ Hlist) as (Hnd & Hvalid & Hout).
  rewrite List_unfold, Hlist. unfold rendering.
  destruct (ListFilesArgs.AbsPath args).
  - apply deref_all_Forall2 in Hfs. specialize (Hres eq_refl).
    pose proof (Forall2_resolves self _ _ _ Hfs Hres) as Hall.
    destruct (absPathLoop_resolves self ptrs w1 Hnd Hall)
      as (h2 & Hloop & _ & Hh2).
    rewrite Hloop.
    assert (Hfs2 : deref_all h2 ptrs = Some (map (renamed self) fs)).
    { apply deref_all_Forall2.
      apply (Forall2_lookup_renamed (heap w1)); [done|].
      intros p f Hin Hp. rewrite (Hh2 p f Hp). by rewrite decide_True. }
    destruct (ListFilesArgs.UseCsv args).
    + rewrite (PrintFileList_ok _ _ (map (renamed self) fs)) by done.
      eexists. split; [done|]. simpl. by rewrite Hout.
    + rewrite (PrintTabbedFileList_ok _ _ (map (renamed self) fs)) by done.
      eexists. split; [done|]. simpl. by rewrite Hout.
  - unfold ret. destruct (ListFilesArgs.UseCsv args).
    + rewrite (PrintFileList_ok _ _ fs) by done.
      eexists. split; [done|]. simpl. by rewrite Hout.
    + rewrite (PrintTabbedFileList_ok _ _ fs) by done.
      eexists. split; [done|]. simpl. by rewrite Hout.
Qed.

(** X4. Without absolute-path mode, against a service that holds the pages
    [ps], [List] returns nil and writes exactly one rendering: the header
    unless it is skipped, then one row for each of the first [N] records of
    [ps] (all of them without a positive maximum), in the order they are
    served, with the fields the service gave. *)
Theorem List_renders_the_listing fuel self args ps w :
  ListFilesArgs.AbsPath args = false ->
  in_int64 (ListFilesArgs.MaxFiles args) ->
  remote_run (service_Files_List self) (listCall (listArgsOf args)) ps
             Exhausted ->
  (length ps < fuel)%nat ->
  let shown := listed (ListFilesArgs.MaxFiles args) (records ps) in
  exists w',
    List fuel self args w = Ret None w' /\
    output w' = output w ++ rendering args shown /\
    length (rendering args shown)
    = ((if ListFilesArgs.SkipHeader args then 0 else 1) + length shown)%nat.
Proof.
  intros Habs Hrange Hrun Hfuel shown.
  destruct (listAllFiles_listing self (listArgsOf args) ps fuel w)
    as (ptrs & w1 & Hlist & Hfs); [done..|].
  destruct (List_renders fuel self args w ptrs w1 _ Hlist Hfs) as (w3 & Hret & Hout).
  { by rewrite Habs. }
  rewrite Habs in Hout. exists w3. split; [done|]. split; [done|].
  apply length_rendering.
Qed.

(** X5. In absolute-path mode, against a service that holds the pages [ps]
    and when the path of every listed record resolves, [List] returns nil
    and the rendering it writes is that of the listed records with the name
    of each replaced by the path [absPath] returned for it, every other
    field as served: the Name field of each row is that path, truncated. *)
Theorem List_renders_resolved_paths fuel self args ps w :
  ListFilesArgs.AbsPath args = true ->
  in_int64 (ListFilesArgs.MaxFiles args) ->
  remote_run (service_Files_List self) (listCall (listArgsOf args)) ps
             Exhausted ->
  (length ps < fuel)%nat ->
  Forall (fun f => snd (absPath self f) = None)
         (listed (ListFilesArgs.MaxFiles args) (records ps)) ->
  let with_path f :=
    mkFile (Id f) (fst (absPath self f)) (Md5Checksum f) (MimeType f)
           (Size f) (CreatedTime f) (Parents f) (HeadRevisionId f) in
  (exists w',
     List fuel self args w = Ret None w' /\
     output w'
     = output w ++
       rendering args
         (map with_path (listed (ListFilesArgs.MaxFiles args) (records ps)))) /\
  (forall f ext,
     cells (int (ListFilesArgs.NameWidth args))
           (ListFilesArgs.SizeInBytes args) ext (with_path f)
     = [ Id f;
         truncateString (fst (absPath self f))
                        (int (ListFilesArgs.NameWidth args));
         filetype (with_path f);
         formatSize (Size f) (ListFilesArgs.SizeInBytes args);
         formatDatetime (CreatedTime f) ]
       ++ (if ext then [Md5Checksum f; HeadRevisionId f] else [])).
Proof.
  intros Habs Hrange Hrun Hfuel Hres with_path. split; [|done].
  destruct (listAllFiles_listing self (listArgsOf args) ps fuel w)
    as (ptrs & w1 & Hlist & Hfs); [done..|].
  destruct (List_renders fuel self args w ptrs w1 _ Hlist Hfs) as (w3 & Hret & Hout).
  { done. }
  rewrite Habs in Hout. by exists w3.
Qed.

(** X6. When the service holds no record, [List] in either mode returns nil
    and writes the header alone, or nothing at all when the header is
    skipped. *)
Theorem List_of_nothing fuel self args ps w :
  in_int64 (ListFilesArgs.MaxFiles args) ->
  remote_run (service_Files_List self) (listCall (listArgsOf args)) ps
             Exhausted ->
  (length ps < fuel)%nat ->
  records ps = [] ->
  exists w',
    List fuel self args w = Ret None w' /\
    output w'
    = output w ++
      (if ListFilesArgs.SkipHeader args then []
       else if ListFilesArgs.UseCsv args
            then [(os_Stdout,
                   CsvRecord 124 (columns (ListFilesArgs.UseExtended args)))]
            else [(ListFilesArgs.Out args,
                   TabLine (tabbed_line (columns false)))]).
Proof.
  intros Hrange Hrun Hfuel Hnone.
  destruct (listAllFiles_listing self (listArgsOf args) ps fuel w)
    as (ptrs & w1 & Hlist & Hfs); [done..|].
  assert (Hlisted : listed (maxFiles (listArgsOf args)) (records ps) = []).
  { rewrite Hnone. unfold listed. by destruct (0 <? _); [rewrite take_nil|]. }
  rewrite Hlisted in Hfs.
  destruct (List_renders fuel self args w ptrs w1 _ Hlist Hfs) as (w3 & Hret & Hout).
  { intros _. constructor. }
  exists w3. split; [done|]. rewrite Hout. f_equal.
  unfold rendering, csv_rows, tabbed_rows, printArgsOf. simpl.
  destruct (ListFilesArgs.AbsPath args), (ListFilesArgs.UseCsv args),
    (ListFilesArgs.SkipHeader args); reflexivity.
Qed.

End ListRenders.

Lemma List_renders_the_listing_witness :
  exists w',
    @List sample_util 4 sample_drive (sample_args 3 false false false)
          empty_world = Ret None w' /\
    output w'
    = output empty_world
      ++ @rendering sample_util (sample_args 3 false false false)
           (listed 3 (records three_pages_list)) /\
    length (@rendering sample_util (sample_args 3 false false false)
              (listed 3 (records three_pages_list)))
    = (1 + length (listed 3 (records three_pages_list)))%nat.
Proof.
  apply (@List_renders_the_listing sample_util 4%nat sample_drive
           (sample_args 3 false false false) three_pages_list empty_world).
  - reflexivity.
  - unfold in_int64. simpl. lia.
  - apply three_pages_run.
  - simpl. lia.
Defined.

Lemma List_renders_resolved_paths_witness :
  exists w',
    @List sample_util 4 resolving_drive (sample_args 0 true true true)
          empty_world = Ret None w' /\
    output w'
    = output empty_world
      ++ @rendering sample_util (sample_args 0 true true true)
           (map (fun f =>
                   mkFile (Id f) (fst (absPath resolving_drive f))
                          (Md5Checksum f) (MimeType f) (Size f)
                          (CreatedTime f) (Parents f) (HeadRevisionId f))
                (listed 0 (records three_pages_list))).
Proof.
  apply (proj1 (@List_renders_resolved_paths sample_util 4%nat resolving_drive
           (sample_args 0 true true true) three_pages_list empty_world
           eq_refl
           ltac:(unfold in_int64; simpl; lia)
           (three_pages_run _ _ _ _)
           ltac:(simpl; lia)
           ltac:(repeat constructor))).
Defined.

Example List_resolved_paths_rows :
  output (world_of (@List sample_util 4 resolving_drive
                          (sample_args 2 true true true) empty_world))
  = [ (os_Stdout, CsvRecord 124 ["Id"; "Name"; "Type"; "Size"; "Created";
                                 "Checksum"; "HeadRevisionId"]);
      (os_Stdout, CsvRecord 124 ["id-a"; "/My Drive/a.txt"; "bin"; "some";
                                 "2020-01-01"; "d41d8cd9"; "r1"]);
      (os_Stdout, CsvRecord 124 ["id-b"; "/My Drive/photos"; "dir"; "";
                                 "2020-01-02"; ""; ""]) ].
Proof. vm_compute. reflexivity. Qed.

Lemma empty_service_run c :
  remote_run empty_service c [mkPage [] ""] Exhausted.
Proof. by apply run_last. Qed.

Lemma List_of_nothing_witness :
  exists w',
    @List sample_util 2 empty_drive (sample_args 10 true false false)
          empty_world = Ret None w' /\
    output w'
    = output empty_world
      ++ [(Sink 1, TabLine (tabbed_line (columns false)))].
Proof.
  apply (@List_of_nothing sample_util 2%nat empty_drive
           (sample_args 10 true false false) [mkPage [] ""] empty_world).
  - unfold in_int64. simpl. lia.
  - apply empty_service_run.
  - simpl. lia.
  - reflexivity.
Defined.

(** ** Errors and output *)

(** X7. When [List] returns an error, whichever it is (a failed fetch, a
    path that does not resolve), nothing has been written to any writer. *)
Theorem List_error_writes_nothing `{Util} fuel self args w e :
  returned (List fuel self args w) = Some (Some e) ->
  output (world_of (List fuel self args w)) = output w.
Proof.
  intros Hret.
  destruct (List_output fuel self args w) as [Hout | (ptrs & fs & Hnil & _)];
    [done|congruence].
Qed.

Lemma List_error_writes_nothing_witness :
  output (world_of (@List sample_util 3 failing_drive
                          (sample_args 5 false true false)
                          (mkWorld [] [] [(Sink 1, TabLine "earlier")])))
  = [(Sink 1, TabLine "earlier")].
Proof.
  apply (@List_error_writes_nothing sample_util 3%nat failing_drive
           (sample_args 5 false true false)
           (mkWorld [] [] [(Sink 1, TabLine "earlier")])
           (Errorf "Failed to list files: backend error")).
  vm_compute. reflexivity.
Defined.

(** ** The two renderers side by side *)

(** X8. For the same arguments and files, and a delimiter that the csv
    writer accepts, the two renderers show the same values: there is one
    list of records such that [PrintFileList] writes each of them,
    delimited, to the standard output, and [PrintTabbedFileList] writes, to
    [Out], the line made of the first five fields of each. *)
Theorem renderers_show_the_same_fields `{Util} args w fs :
  deref_all (heap w) (PrintFileListArgs.Files args) = Some fs ->
  validDelim (PrintFileListArgs.Delimiter args) = true ->
  exists records : list (list string),
    length records
    = ((if PrintFileListArgs.SkipHeader args then 0 else 1) + length fs)%nat /\
    output (world_of (PrintFileList args w))
    = output w
      ++ map (fun r => (os_Stdout,
                        CsvRecord (PrintFileListArgs.Delimiter args) r))
             records /\
    output (world_of (PrintTabbedFileList args w))
    = output w
      ++ map (fun r => (PrintFileListArgs.Out args,
                        TabLine (tabbed_line (take 5 r))))
             records.
Proof.
  intros Hfs Hvalid.
  exists ((if PrintFileListArgs.SkipHeader args then []
           else [columns (PrintFileListArgs.UseExtended args)])
          ++ map (cells (PrintFileListArgs.NameWidth args)
                        (PrintFileListArgs.SizeInBytes args)
                        (PrintFileListArgs.UseExtended args)) fs).
  rewrite (PrintFileList_ok _ _ fs), (PrintTabbedFileList_ok _ _ fs) by done.
  rewrite Hvalid. simpl. unfold csv_rows, tabbed_rows.
  rewrite length_app, length_map, !map_app, !List.map_map.
  split; [by destruct (PrintFileListArgs.SkipHeader args)|].
  split; f_equal.
  - f_equal. by destruct (PrintFileListArgs.SkipHeader args).
  - by destruct (PrintFileListArgs.SkipHeader args).
Qed.

Lemma renderers_show_the_same_fields_witness :
  exists records : list (list string),
    length records = (1 + 3)%nat /\
    output (world_of (@PrintFileList sample_util (print_args false true 59)
                                     listed_world))
    = output listed_world
      ++ map (fun r => (os_Stdout, CsvRecord 59 r)) records /\
    output (world_of (@PrintTabbedFileList sample_util
                                           (print_args false true 59)
                                           listed_world))
    = output listed_world
      ++ map (fun r => (Sink 1, TabLine (tabbed_line (take 5 r)))) records.
Proof.
  apply (@renderers_show_the_same_fields sample_util
           (print_args false true 59) listed_world
           [file_a; file_b; file_c] eq_refl eq_refl).
Defined.

(** ** filetype *)

(** X9. [filetype] answers "dir" exactly for the files [isDir] accepts,
    "bin" exactly for those it rejects and [isBinary] accepts, and "doc"
    exactly for those both reject: a folder is "dir" even when it is also
    classified as binary. *)
Theorem filetype_cases `{Util} f :
  (filetype f = "dir" <-> isDir f = true) /\
  (filetype f = "bin" <-> isDir f = false /\ isBinary f = true) /\
  (filetype f = "doc" <-> isDir f = false /\ isBinary f = false).
Proof.
  unfold filetype. destruct (isDir f), (isBinary f);
    repeat split; try done; intros; try discriminate;
    by repeat match goal with H : _ /\ _ |- _ => destruct H end.
Qed.

(** ** A failure behind the stop, and services that never end *)

(** X10. With a maximum [N > 0], a fetch that would fail is harmless when
    the pages before it already hold [N] records: [listAllFiles] stops
    before asking for it and returns the first [N] records with a nil
    error. *)
Theorem listAllFiles_stops_before_failure self args ps msg fuel w :
  in_int64 (maxFiles args) ->
  0 < maxFiles args ->
  remote_run (service_Files_List self) (listCall args) ps (Failed msg) ->
  maxFiles args <= len (records ps) ->
  (length ps < fuel)%nat ->
  exists ptrs w',
    listAllFiles fuel self args w = Ret (ptrs, None) w' /\
    deref_all (heap w') ptrs
    = Some (take (Z.to_nat (maxFiles args)) (records ps)).
Proof.
  intros Hrange Hpos Hrun Hreach Hfuel.
  destruct (Pages_collect self (maxFiles args) _ _ _ Hrun fuel [] w Hfuel)
    as (got & rest & calls & e & Hps & Hpages & Hcases).
  simpl in Hpages, Hcases.
  destruct Hcases as [(-> & He & _) | (-> & -> & Hlen)].
  - exists (take (Z.to_nat (maxFiles args)) (fresh w (length (records got)))).
    eexists. split.
    + rewrite listAllFiles_unfold, Hpages. by apply afterPages_stop.
    + simpl. rewrite deref_all_fresh. f_equal.
      apply enough_true in He as [_ He]; [|done].
      unfold len in He. rewrite length_fresh in He.
      rewrite Hps, records_app, take_app_le; [done|lia].
  - exfalso.
    destruct (Pages_collect_calls self (maxFiles args) _ _ _ Hrange Hpos Hrun
                fuel [] w Hfuel) as (calls' & Hreq & _ & Hbelow & _).
    rewrite Hpages in Hreq. simpl in Hreq. apply app_inv_head in Hreq as <-.
    destruct ps as [|p ps].
    { unfold len in Hreach. simpl in Hreach. lia. }
    assert (Hj : (0 < length (p :: ps) < length calls)%nat)
      by (simpl in *; lia).
    specialize (Hbelow _ Hj).
    rewrite take_ge in Hbelow by done. unfold len in *. simpl in Hbelow. lia.
Qed.

Lemma late_failure_run q fs o n :
  remote_run late_failure (mkCall q fs o n "") late_failure_pages
             (Failed "quota exceeded").
Proof.
  eapply run_next; [reflexivity | discriminate |].
  eapply run_next; [reflexivity | discriminate |].
  apply run_failed. reflexivity.
Qed.

Lemma listAllFiles_stops_before_failure_witness :
  exists ptrs w',
    listAllFiles 3 late_failure_drive (mkListAllFilesArgs "" listFields "" 3)
                 empty_world = Ret (ptrs, None) w' /\
    deref_all (heap w') ptrs
    = Some (take (Z.to_nat 3) (records late_failure_pages)).
Proof.
  apply (listAllFiles_stops_before_failure late_failure_drive
           (mkListAllFilesArgs "" listFields "" 3) late_failure_pages
           "quota exceeded" 3%nat empty_world).
  - unfold in_int64. simpl. lia.
  - simpl. lia.
  - apply late_failure_run.
  - vm_compute. discriminate.
  - simpl. lia.
Defined.

(** Under a positive maximum, while fewer files than the maximum are
    accumulated and every request is answered by a page that is not empty,
    [Pages] returns within as many requests as files are missing. *)
Lemma Pages_collect_returns self N :
  in_int64 N -> 0 < N ->
  (forall c, exists p, service_Files_List self c = inr p /\ page_files p <> []) ->
  forall fuel c acc w,
    len acc < N -> (Z.to_nat (N - len acc) <= fuel)%nat ->
    exists files e w' calls,
      Pages fuel self c (collect N) acc w = Ret (files, e) w' /\
      (e = Some controlledStop \/ e = None) /\
      requests w' = requests w ++ calls /\
      (Z.of_nat (length calls) <= N - len acc).
Proof.
  intros Hrange Hpos Hsvc.
  induction fuel as [|fuel IH]; intros c acc w Hacc Hfuel; [lia|].
  rewrite Pages_step. cbv zeta.
  destruct (Hsvc c) as (p & Hc & Hp). rewrite Hc, collect_eq. simpl Files.
  fold (fresh w (length (page_files p))).
  assert (Hpage : 1 <= Z.of_nat (length (page_files p))).
  { destruct (page_files p); [done|simpl; lia]. }
  destruct (enough N _) eqn:He.
  { eexists _, _, _, [c]. split; [done|]. split; [auto|]. split; [done|].
    simpl. lia. }
  destruct (String.eqb _ _).
  { eexists _, _, _, [c]. split; [done|]. split; [auto|]. split; [done|].
    simpl. lia. }
  apply enough_len_false in He; [|done..].
  assert (Hacc' : len (acc ++ fresh w (length (page_files p)))
                  = len acc + Z.of_nat (length (page_files p))).
  { unfold len. rewrite length_app, length_fresh. lia. }
  destruct (IH (with_PageToken c (page_next p))
               (acc ++ fresh w (length (page_files p)))
               (mkWorld (heap w ++ page_files p) (requests w ++ [c]) (output w)))
    as (files & e & w' & calls & Hret & He' & Hreq & Hlen); [lia..|].
  exists files, e, w', (c :: calls). split; [done|]. split; [done|].
  simpl in Hreq. rewrite <- app_assoc in Hreq. split; [done|].
  simpl length. lia.
Qed.

(** X11. With a maximum [N > 0] and a service that answers every request
    with a page that is not empty, [listAllFiles] returns, with a nil error
    and at most [N] pointers, after at most [N] requests, whether or not the
    service ever runs out of pages. *)
Theorem listAllFiles_bounded_returns self args fuel w :
  in_int64 (maxFiles args) ->
  0 < maxFiles args ->
  (forall c, exists p, service_Files_List self c = inr p /\ page_files p <> []) ->
  (Z.to_nat (maxFiles args) <= fuel)%nat ->
  exists ptrs w' calls,
    listAllFiles fuel self args w = Ret (ptrs, None) w' /\
    len ptrs <= maxFiles args /\
    requests w' = requests w ++ calls /\
    len calls <= maxFiles args.
Proof.
  intros Hrange Hpos Hsvc Hfuel.
  destruct (Pages_collect_returns self (maxFiles args) Hrange Hpos Hsvc
              fuel (listCall args) [] w)
    as (files & e & w' & calls & Hret & He & Hreq & Hlen).
  { unfold len. simpl. lia. }
  { unfold len. simpl. by rewrite Z.sub_0_r. }
  exists (take (Z.to_nat (maxFiles args)) files), w', calls.
  split; [|split; [|split; [done|]]].
  - rewrite listAllFiles_unfold, Hret. unfold afterPages.
    destruct (Z.ltb_spec 0 (maxFiles args)) as [_|]; [|lia].
    rewrite (int_in_range _ Hrange).
    destruct He as [-> | ->]; unfold bind; rewrite slice_to_min by lia;
      reflexivity.
  - unfold len. rewrite length_take. lia.
  - unfold len in *. simpl in Hlen. lia.
Qed.

Lemma listAllFiles_bounded_returns_witness :
  exists ptrs w' calls,
    listAllFiles 3 endless_drive (mkListAllFilesArgs "" listFields "" 3)
                 empty_world = Ret (ptrs, None) w' /\
    len ptrs <= 3 /\
    requests w' = requests empty_world ++ calls /\
    len calls <= 3.
Proof.
  apply (listAllFiles_bounded_returns endless_drive
           (mkListAllFilesArgs "" listFields "" 3) 3%nat empty_world).
  - unfold in_int64. simpl. lia.
  - simpl. lia.
  - intros c. exists (mkPage [file_a] "more"). split; [reflexivity|discriminate].
  - simpl. lia.
Defined.

(** X12. Without a positive maximum, against a service that always answers
    with a page that names a next page, [listAllFiles] never returns: every
    amount of fuel is spent, each unit on one more request. *)
Theorem listAllFiles_unbounded_never_returns self args :
  maxFiles args <= 0 ->
  (forall c, exists p, service_Files_List self c = inr p /\ page_next p <> "") ->
  forall fuel w,
  exists w',
    listAllFiles fuel self args w = OutOfFuel w' /\
    length (requests w') = (length (requests w) + fuel)%nat.
Proof.
  intros HN Hsvc fuel w. rewrite listAllFiles_unfold.
  generalize (listCall args) (@nil nat). revert w.
  induction fuel as [|fuel IH]; intros w c acc.
  { exists w. simpl. split; [done|lia]. }
  rewrite Pages_step. cbv zeta.
  destruct (Hsvc c) as (p & Hc & Hp). rewrite Hc, collect_eq. simpl Files.
  rewrite enough_false_nonpos by done.
  destruct (String.eqb_spec (page_next p) "") as [Heq|_]; [done|].
  destruct (IH (mkWorld (heap w ++ page_files p) (requests w ++ [c]) (output w))
               (with_PageToken c (page_next p))
               (acc ++ fresh_at (length (heap w)) (length (page_files p))))
    as (w' & Hret & Hlen).
  exists w'. split.
  - by destruct (Pages _ _ _ _ _ _).
  - rewrite Hlen. simpl. rewrite length_app. simpl. lia.
Qed.

Lemma listAllFiles_unbounded_never_returns_witness :
  exists w',
    listAllFiles 5 endless_drive (mkListAllFilesArgs "" listFields "" 0)
                 empty_world = OutOfFuel w' /\
    length (requests w') = (length (requests empty_world) + 5)%nat.
Proof.
  apply (listAllFiles_unbounded_never_returns endless_drive
           (mkListAllFilesArgs "" listFields "" 0)).
  - simpl. lia.
  - intros c. exists (mkPage [file_a] "more"). split; [reflexivity|discriminate].
Defined.
